(** * MTA GTFS feeds: a shallow embedding of [dlt_mta_rtf]

    The development follows the two source modules of the package:

    - [Realtime] embeds [mta_gtfs_realtime.py] (and the stand-alone fetch
      helper of [test_realtime_raw_payload.py]): the feed table, the
      download of one feed, the three per-kind generators and the three
      resources of [mta_rt_source];
    - [Static] embeds [mta_gtfs_static.py]: the member reader [_iter_csv]
      on top of a model of Python's [csv.DictReader], and the resources
      declared by [mta_static_source].

    Python generators are run to completion: a generator is the list of
    the values it yields together with the exception that ended it, if
    any.  The network and the clock are oracles indexed by the number of
    interactions made so far, so that two requests to one URL, or two
    readings of the clock, are free to differ. *)

From Stdlib Require Import List String Ascii Bool Arith Lia ZArith.
From Stdlib.Strings Require Import Byte.
Import ListNotations.

Local Open Scope string_scope.
Local Open Scope list_scope.

(** ** Python dictionaries

    A [dict] keeps its keys in insertion order; assigning to a key that
    is already present replaces the value where the key stands. *)

Module PyDict.

Section Dict.
Context {K V : Type}.
Variable eqb : K -> K -> bool.

Definition dict := list (K * V).

Fixpoint get (d : dict) (k : K) : option V :=
  match d with
  | [] => None
  | (k', v) :: d' => if eqb k k' then Some v else get d' k
  end.

(** [d[k] = v] *)
Fixpoint set (d : dict) (k : K) (v : V) : dict :=
  match d with
  | [] => [(k, v)]
  | (k', v') :: d' =>
      if eqb k k' then (k', v) :: d' else (k', v') :: set d' k v
  end.

(** [dict(pairs)]: the pairs are assigned from left to right. *)
Definition of_pairs (l : list (K * V)) : dict :=
  fold_left (fun d kv => set d (fst kv) (snd kv)) l [].

Definition keys (d : dict) : list K := map fst d.
Definition items (d : dict) : list (K * V) := d.
End Dict.

End PyDict.

(** ** The real-time module, [mta_gtfs_realtime.py] *)

Module Realtime.

(** [FEED_URLS], in the order the literal lists its keys. *)
Definition FEED_URLS : PyDict.dict (K := string) (V := string) :=
  [ ("ace", "https://api-endpoint.mta.info/Dataservice/mtagtfsfeeds/nyct%2Fgtfs-ace");
    ("bdfm", "https://api-endpoint.mta.info/Dataservice/mtagtfsfeeds/nyct%2Fgtfs-bdfm");
    ("g", "https://api-endpoint.mta.info/Dataservice/mtagtfsfeeds/nyct%2Fgtfs-g");
    ("jz", "https://api-endpoint.mta.info/Dataservice/mtagtfsfeeds/nyct%2Fgtfs-jz");
    ("l", "https://api-endpoint.mta.info/Dataservice/mtagtfsfeeds/nyct%2Fgtfs-l");
    ("nqrw", "https://api-endpoint.mta.info/Dataservice/mtagtfsfeeds/nyct%2Fgtfs-nqrw");
    ("main", "https://api-endpoint.mta.info/Dataservice/mtagtfsfeeds/nyct%2Fgtfs");
    ("sir", "https://api-endpoint.mta.info/Dataservice/mtagtfsfeeds/nyct%2Fgtfs-si") ].

(** *** Requests and responses *)

Record Request := mkRequest {
  req_url : string;
  req_headers : option (list (string * string));
  req_timeout : Z
}.

Record Response := mkResponse {
  status_code : Z;
  content : list byte
}.

(** The ways [requests.get] itself gives up: no response was received. *)
Inductive TransportFailure := ConnectionError | Timeout.

(** The exceptions that leave the module.  [RequestException] is raised
    by [requests.get], [HTTPError] by [raise_for_status] and carries the
    status of the response, [DecodeError] by [ParseFromString], and
    [KeyError] by the subscript [FEED_URLS[feed_name]] and carries the
    key. *)
Inductive Exception :=
| RequestException (f : TransportFailure)
| HTTPError (status : Z)
| DecodeError
| KeyError (key : string).

(** [Response.raise_for_status]: statuses 400 to 599 raise. *)
Definition raise_for_status (r : Response) : option Exception :=
  if ((400 <=? status_code r) && (status_code r <? 600))%Z
  then Some (HTTPError (status_code r))
  else None.

(** Python truthiness of an [Optional[str]]: [None] and the empty string
    are false. *)
Definition truthy (s : option string) : bool :=
  match s with
  | None => false
  | Some v => negb (v =? "")
  end.

(** Truthiness of an [Optional[List[str]]]. *)
Definition truthy_list {A} (l : option (list A)) : bool :=
  match l with
  | None | Some [] => false
  | Some (_ :: _) => true
  end.

(** [headers = {"x-api-key": api_key} if api_key else None] *)
Definition headers_for (api_key : option string) : option (list (string * string)) :=
  match api_key with
  | Some k => if truthy api_key then Some [("x-api-key", k)] else None
  | None => None
  end.

(** *** Decoded feeds

    [Message] stands for a decoded sub-message (a trip update, a vehicle
    position or an alert) and [Dict] for what [MessageToDict] makes of
    it.  The three sub-messages of a [FeedEntity] are optional fields of
    the entity, not alternatives of one field. *)

Section Feeds.
Variable Message : Type.
Variable Dict : Type.
Variable MessageToDict : Message -> Dict.
(** Reading a sub-message field that is not set gives the default
    instance of the message. *)
Variable default_instance : Message.

Record FeedEntity := mkEntity {
  id : string;
  trip_update : option Message;
  vehicle : option Message;
  alert : option Message
}.

Record FeedMessage := mkFeed {
  header : option Message;
  entity : list FeedEntity
}.

Definition isSome {A} (o : option A) : bool :=
  match o with Some _ => true | None => false end.

Definition read (field : option Message) : Message :=
  match field with Some m => m | None => default_instance end.

(** [entity.HasField(name)] for the three names the module asks for
    (protobuf rejects a name that is not a field of the message; the
    module passes only these constants). *)
Definition HasField (e : FeedEntity) (name : string) : bool :=
  if name =? "trip_update" then isSome (trip_update e)
  else if name =? "vehicle" then isSome (vehicle e)
  else if name =? "alert" then isSome (alert e)
  else false.

(** The dictionary yielded for one entity: the keys ["feed"],
    ["entity_id"], ["as_of"] and one more key, named after the
    sub-message, that holds its conversion. *)
Record Row := mkRow {
  feed : string;
  entity_id : string;
  as_of : string;
  payload : string * Dict
}.

(** *** The world

    [log] records the interactions made so far, in order, and [tick]
    counts them.  [requests_get t r] is what the network answers
    to request [r] issued at tick [t]; [utcnow t] is what the clock
    shows at tick [t]; [ParseFromString] is the protobuf decoder. *)

Inductive Event :=
| EvGet (r : Request)
| EvParse (body : list byte)
| EvNow.

Record World := mkWorld {
  tick : nat;
  log : list Event
}.

Definition emit (ev : Event) (w : World) : World :=
  {| tick := S (tick w); log := log w ++ [ev] |}.

Variable requests_get : nat -> Request -> TransportFailure + Response.
Variable utcnow : nat -> string.
Variable ParseFromString : list byte -> option FeedMessage.

(** Computations that may raise: the result, or the exception, and the
    world they leave. *)
Definition M (A : Type) : Type := World -> (Exception + A) * World.

Definition ret {A} (a : A) : M A := fun w => (inr a, w).
Definition raise {A} (e : Exception) : M A := fun w => (inl e, w).
Definition bind {A B} (m : M A) (k : A -> M B) : M B :=
  fun w =>
    match m w with
    | (inl e, w') => (inl e, w')
    | (inr a, w') => k a w'
    end.

Notation "x <- m ;; k" := (bind m (fun x => k))
  (at level 61, m at next level, right associativity).

Definition http_get (r : Request) : M Response :=
  fun w =>
    match requests_get (tick w) r with
    | inl f => (inl (RequestException f), emit (EvGet r) w)
    | inr resp => (inr resp, emit (EvGet r) w)
    end.

Definition check_status (resp : Response) : M unit :=
  match raise_for_status resp with
  | Some e => raise e
  | None => ret tt
  end.

Definition parse (body : list byte) : M FeedMessage :=
  fun w =>
    match ParseFromString body with
    | None => (inl DecodeError, emit (EvParse body) w)
    | Some msg => (inr msg, emit (EvParse body) w)
    end.

Definition _download_feed (url : string) (api_key : option string) : M FeedMessage :=
  let headers := headers_for api_key in
  response <- http_get (mkRequest url headers 30) ;;
  _ <- check_status response ;;
  parse (content response).

(** [fetch_raw_payload] of [test_realtime_raw_payload.py]. *)
Definition fetch_raw_payload (url : string) (api_key : option string) (timeout : Z)
  : M (list byte) :=
  let headers := headers_for api_key in
  response <- http_get (mkRequest url headers timeout) ;;
  _ <- check_status response ;;
  ret (content response).

(** *** The per-kind generators

    Each reads the clock once, when it starts, and then walks the
    entities in order. *)

Definition now (w : World) : string * World := (utcnow (tick w), emit EvNow w).

Fixpoint trip_updates_of (feed_name as_of : string) (es : list FeedEntity) : list Row :=
  match es with
  | [] => []
  | e :: es' =>
      if negb (HasField e "trip_update") then trip_updates_of feed_name as_of es'
      else
        mkRow feed_name (id e) as_of ("trip_update", MessageToDict (read (trip_update e)))
        :: trip_updates_of feed_name as_of es'
  end.

Definition _iter_trip_updates (feed_name : string) (feed_msg : FeedMessage)
  (w : World) : list Row * World :=
  let (as_of, w') := now w in
  (trip_updates_of feed_name as_of (entity feed_msg), w').

Fixpoint vehicle_positions_of (feed_name as_of : string) (es : list FeedEntity) : list Row :=
  match es with
  | [] => []
  | e :: es' =>
      if negb (HasField e "vehicle") then vehicle_positions_of feed_name as_of es'
      else
        mkRow feed_name (id e) as_of ("vehicle", MessageToDict (read (vehicle e)))
        :: vehicle_positions_of feed_name as_of es'
  end.

Definition _iter_vehicle_positions (feed_name : string) (feed_msg : FeedMessage)
  (w : World) : list Row * World :=
  let (as_of, w') := now w in
  (vehicle_positions_of feed_name as_of (entity feed_msg), w').

Fixpoint alerts_of (feed_name as_of : string) (es : list FeedEntity) : list Row :=
  match es with
  | [] => []
  | e :: es' =>
      if negb (HasField e "alert") then alerts_of feed_name as_of es'
      else
        mkRow feed_name (id e) as_of ("alert", MessageToDict (read (alert e)))
        :: alerts_of feed_name as_of es'
  end.

Definition _iter_alerts (feed_name : string) (feed_msg : FeedMessage)
  (w : World) : list Row * World :=
  let (as_of, w') := now w in
  (alerts_of feed_name as_of (entity feed_msg), w').

(** The three generators, by the kind of entity they keep. *)
Inductive Kind := TripUpdate | VehiclePosition | Alert.

Definition field_of (k : Kind) : string :=
  match k with
  | TripUpdate => "trip_update"
  | VehiclePosition => "vehicle"
  | Alert => "alert"
  end.

Definition sub_message (k : Kind) (e : FeedEntity) : option Message :=
  match k with
  | TripUpdate => trip_update e
  | VehiclePosition => vehicle e
  | Alert => alert e
  end.

Definition rows_of (k : Kind) : string -> string -> list FeedEntity -> list Row :=
  match k with
  | TripUpdate => trip_updates_of
  | VehiclePosition => vehicle_positions_of
  | Alert => alerts_of
  end.

Definition iter_of (k : Kind) : string -> FeedMessage -> World -> list Row * World :=
  match k with
  | TripUpdate => _iter_trip_updates
  | VehiclePosition => _iter_vehicle_positions
  | Alert => _iter_alerts
  end.

(** The row a generator of kind [k] yields for an entity it keeps. *)
Definition row_for (k : Kind) (feed_name as_of : string) (e : FeedEntity) : Row :=
  mkRow feed_name (id e) as_of (field_of k, MessageToDict (read (sub_message k e))).

(** What the log says about the outside: the requests sent, and the
    bodies handed to the decoder. *)
Fixpoint requests_in (l : list Event) : list Request :=
  match l with
  | [] => []
  | EvGet r :: l' => r :: requests_in l'
  | _ :: l' => requests_in l'
  end.

Fixpoint decoded_in (l : list Event) : list (list byte) :=
  match l with
  | [] => []
  | EvParse b :: l' => b :: decoded_in l'
  | _ :: l' => decoded_in l'
  end.

(** *** [mta_rt_source]

    [selected = feeds or list(FEED_URLS.keys())]; the source returns
    its three resources without looking at [selected].  A resource is
    a generator: what it yielded, how it ended, and the world after. *)

Definition selected (feeds : option (list string)) : list string :=
  match feeds with
  | Some l => if truthy_list feeds then l else PyDict.keys FEED_URLS
  | None => PyDict.keys FEED_URLS
  end.

Definition Generator : Type := World -> (list Row * option Exception) * World.

(** The body shared by the three resources:
    [for feed_name in selected: feed_msg = _download_feed(FEED_URLS[feed_name], api_key);
     yield from iter(feed_name, feed_msg)]. *)
Fixpoint for_feeds (iter : string -> FeedMessage -> World -> list Row * World)
  (api_key : option string) (names : list string) : Generator :=
  fun w =>
    match names with
    | [] => (([], None), w)
    | feed_name :: rest =>
        match PyDict.get String.eqb FEED_URLS feed_name with
        | None => (([], Some (KeyError feed_name)), w)
        | Some url =>
            match _download_feed url api_key w with
            | (inl e, w1) => (([], Some e), w1)
            | (inr feed_msg, w1) =>
                let (rows, w2) := iter feed_name feed_msg w1 in
                let '((rows', ended), w3) := for_feeds iter api_key rest w2 in
                ((rows ++ rows', ended), w3)
            end
        end
    end.

Definition trip_updates (api_key : option string) (feeds : option (list string)) : Generator :=
  for_feeds _iter_trip_updates api_key (selected feeds).

Definition vehicle_positions (api_key : option string) (feeds : option (list string)) : Generator :=
  for_feeds _iter_vehicle_positions api_key (selected feeds).

Definition alerts (api_key : option string) (feeds : option (list string)) : Generator :=
  for_feeds _iter_alerts api_key (selected feeds).

Definition mta_rt_source (api_key : option string) (feeds : option (list string))
  : list (string * Generator) :=
  [ ("trip_updates", trip_updates api_key feeds);
    ("vehicle_positions", vehicle_positions api_key feeds);
    ("alerts", alerts api_key feeds) ].

Definition resource_of (k : Kind) : option string -> option (list string) -> Generator :=
  match k with
  | TripUpdate => trip_updates
  | VehiclePosition => vehicle_positions
  | Alert => alerts
  end.

End Feeds.

Arguments mkEntity {Message} id trip_update vehicle alert.
Arguments mkFeed {Message} header entity.
Arguments id {Message} f.
Arguments trip_update {Message} f.
Arguments vehicle {Message} f.
Arguments alert {Message} f.
Arguments header {Message} f.
Arguments entity {Message} f.
Arguments HasField {Message} e name.
Arguments sub_message {Message} k e.
Arguments read {Message} default_instance field.
Arguments mkRow {Dict} feed entity_id as_of payload.
Arguments feed {Dict} r.
Arguments entity_id {Dict} r.
Arguments as_of {Dict} r.
Arguments payload {Dict} r.
Arguments _download_feed {Message} requests_get ParseFromString url api_key w.
Arguments trip_updates_of {Message Dict} MessageToDict default_instance feed_name as_of es.
Arguments vehicle_positions_of {Message Dict} MessageToDict default_instance feed_name as_of es.
Arguments alerts_of {Message Dict} MessageToDict default_instance feed_name as_of es.
Arguments rows_of {Message Dict} MessageToDict default_instance k feed_name as_of es.
Arguments row_for {Message Dict} MessageToDict default_instance k feed_name as_of e.
Arguments _iter_trip_updates {Message Dict} MessageToDict default_instance utcnow feed_name feed_msg w.
Arguments _iter_vehicle_positions {Message Dict} MessageToDict default_instance utcnow feed_name feed_msg w.
Arguments _iter_alerts {Message Dict} MessageToDict default_instance utcnow feed_name feed_msg w.
Arguments iter_of {Message Dict} MessageToDict default_instance utcnow k feed_name feed_msg w.
Arguments for_feeds {Message Dict} requests_get ParseFromString iter api_key names w.
Arguments trip_updates {Message Dict} MessageToDict default_instance requests_get utcnow
  ParseFromString api_key feeds w.
Arguments vehicle_positions {Message Dict} MessageToDict default_instance requests_get utcnow
  ParseFromString api_key feeds w.
Arguments alerts {Message Dict} MessageToDict default_instance requests_get utcnow
  ParseFromString api_key feeds w.
Arguments resource_of {Message Dict} MessageToDict default_instance requests_get utcnow
  ParseFromString k api_key feeds w.
Arguments mta_rt_source {Message Dict} MessageToDict default_instance requests_get utcnow
  ParseFromString api_key feeds.

End Realtime.

(** ** The static module, [mta_gtfs_static.py] *)

Module Static.

(** [csv.Error] is raised by the reader, [KeyError] by [ZipFile.open]
    for a member the archive does not have, [AttributeError] by
    selecting a resource the source does not declare. *)
Inductive Exception :=
| KeyError (member : string)
| CsvError (msg : string)
| AttributeError (name : string).

(** *** Text lines

    A member is read through [io.TextIOWrapper] with its default
    newline handling: a line ends at a line feed, a carriage return, or
    a carriage return followed by a line feed, and each of them is
    handed on as a single line feed. *)

Definition LF : ascii := "010"%char.
Definition CR : ascii := "013"%char.

Definition snoc (s : string) (c : ascii) : string := s ++ String c "".

Fixpoint lines_from (cur : string) (s : string) : list string :=
  match s with
  | "" => if cur =? "" then [] else [cur]
  | String c s' =>
      if Ascii.eqb c LF then snoc cur LF :: lines_from "" s'
      else if Ascii.eqb c CR then
        match s' with
        | String c' s'' =>
            if Ascii.eqb c' LF then snoc cur LF :: lines_from "" s''
            else snoc cur LF :: lines_from "" s'
        | "" => [snoc cur LF]
        end
      else lines_from (snoc cur c) s'
  end.

Definition readlines (text : string) : list string := lines_from "" text.

(** *** [csv.reader], dialect [excel]

    The reader of the [_csv] module for the default dialect: delimiter
    comma, quote character the double quote, doubled quotes inside a
    quoted field, no escape character, not strict.  [None] is the
    end-of-line mark the reader feeds itself after the characters of
    each line. *)

Inductive ParserState :=
| START_RECORD
| START_FIELD
| IN_FIELD
| IN_QUOTED_FIELD
| QUOTE_IN_QUOTED_FIELD
| EAT_CRNL.

Record ReaderObj := mkReader {
  state : ParserState;
  field : string;
  fields : list string
}.

Definition delimiter : ascii := ","%char.
Definition quotechar : ascii := ascii_of_nat 34.
Definition field_limit : Z := 131072.

Definition parse_reset : ReaderObj := mkReader START_RECORD "" [].

Definition with_state (r : ReaderObj) (s : ParserState) : ReaderObj :=
  mkReader s (field r) (fields r).

Definition parse_save_field (r : ReaderObj) : ReaderObj :=
  mkReader (state r) "" (fields r ++ [field r]).

Definition parse_add_char (r : ReaderObj) (c : ascii) : Exception + ReaderObj :=
  if (field_limit <=? Z.of_nat (String.length (field r)))%Z
  then inl (CsvError "field larger than field limit (131072)")
  else inr (mkReader (state r) (snoc (field r) c) (fields r)).

Definition is_newline (c : ascii) : bool := Ascii.eqb c LF || Ascii.eqb c CR.

Definition after_line_end (c : option ascii) : ParserState :=
  match c with None => START_RECORD | Some _ => EAT_CRNL end.

Definition with_state_in {E} (s : ParserState) (x : E + ReaderObj) : E + ReaderObj :=
  match x with
  | inl e => inl e
  | inr r => inr (with_state r s)
  end.

(** The case [START_FIELD], which [START_RECORD] falls through to. *)
Definition start_field (r : ReaderObj) (c : option ascii) : Exception + ReaderObj :=
  match c with
  | None => inr (with_state (parse_save_field r) START_RECORD)
  | Some ch =>
      if is_newline ch then inr (with_state (parse_save_field r) EAT_CRNL)
      else if Ascii.eqb ch quotechar then inr (with_state r IN_QUOTED_FIELD)
      else if Ascii.eqb ch delimiter then inr (parse_save_field r)
      else with_state_in IN_FIELD (parse_add_char r ch)
  end.

Definition parse_process_char (r : ReaderObj) (c : option ascii) : Exception + ReaderObj :=
  match state r with
  | START_RECORD =>
      match c with
      | None => inr r
      | Some ch =>
          if is_newline ch then inr (with_state r EAT_CRNL)
          else start_field (with_state r START_FIELD) c
      end
  | START_FIELD => start_field r c
  | IN_FIELD =>
      match c with
      | None => inr (with_state (parse_save_field r) START_RECORD)
      | Some ch =>
          if is_newline ch then inr (with_state (parse_save_field r) EAT_CRNL)
          else if Ascii.eqb ch delimiter then inr (with_state (parse_save_field r) START_FIELD)
          else parse_add_char r ch
      end
  | IN_QUOTED_FIELD =>
      match c with
      | None => inr r
      | Some ch =>
          if Ascii.eqb ch quotechar then inr (with_state r QUOTE_IN_QUOTED_FIELD)
          else parse_add_char r ch
      end
  | QUOTE_IN_QUOTED_FIELD =>
      match c with
      | None => inr (with_state (parse_save_field r) START_RECORD)
      | Some ch =>
          if Ascii.eqb ch quotechar then with_state_in IN_QUOTED_FIELD (parse_add_char r ch)
          else if Ascii.eqb ch delimiter then inr (with_state (parse_save_field r) START_FIELD)
          else if is_newline ch then inr (with_state (parse_save_field r) EAT_CRNL)
          else with_state_in IN_FIELD (parse_add_char r ch)
      end
  | EAT_CRNL =>
      match c with
      | None => inr (with_state r START_RECORD)
      | Some ch =>
          if is_newline ch then inr r
          else inl (CsvError "new-line character seen in unquoted field")
      end
  end.

(** The characters of one line, then the end-of-line mark. *)
Fixpoint feed_line (r : ReaderObj) (line : string) : Exception + ReaderObj :=
  match line with
  | "" => parse_process_char r None
  | String c rest =>
      match parse_process_char r (Some c) with
      | inl e => inl e
      | inr r' => feed_line r' rest
      end
  end.

Definition is_start_record (s : ParserState) : bool :=
  match s with START_RECORD => true | _ => false end.

Definition is_in_quoted_field (s : ParserState) : bool :=
  match s with IN_QUOTED_FIELD => true | _ => false end.

(** The rows the reader returns, one call of [next] after the other,
    and the error that ends the iteration, if one does.  A row is
    complete when a line leaves the reader in [START_RECORD]; input that
    ends inside a quoted field still gives that last row. *)
Fixpoint reader_rows (r : ReaderObj) (lines : list string)
  : list (list string) * option Exception :=
  match lines with
  | [] =>
      if negb (field r =? "") || is_in_quoted_field (state r)
      then ([fields (parse_save_field r)], None)
      else ([], None)
  | line :: rest =>
      match feed_line r line with
      | inl e => ([], Some e)
      | inr r' =>
          if is_start_record (state r')
          then let (rows, ended) := reader_rows parse_reset rest in
               (fields r' :: rows, ended)
          else reader_rows r' rest
      end
  end.

Definition csv_reader (lines : list string) : list (list string) * option Exception :=
  reader_rows parse_reset lines.

(** *** [csv.DictReader]

    Keys are the field names, or [None], the default [restkey], for the
    surplus of a long row.  A value is a string, or [None], the default
    [restval], for a column a short row does not reach, or the list of
    the surplus values. *)

Inductive Cell :=
| CNone
| CStr (s : string)
| CList (l : list string).

Definition key_eqb (a b : option string) : bool :=
  match a, b with
  | None, None => true
  | Some x, Some y => x =? y
  | _, _ => false
  end.

Definition RowDict : Type := PyDict.dict (K := option string) (V := Cell).

Definition is_blank (row : list string) : bool :=
  match row with [] => true | _ => false end.

(** The body of [DictReader.__next__] for a row that is not [[]]. *)
Definition dict_of_row (fieldnames row : list string) : RowDict :=
  let d := PyDict.of_pairs key_eqb (combine (map Some fieldnames) (map CStr row)) in
  let lf := List.length fieldnames in
  let lr := List.length row in
  if (lf <? lr)%nat then PyDict.set key_eqb d None (CList (skipn lf row))
  else if (lr <? lf)%nat then
    fold_left (fun d key => PyDict.set key_eqb d (Some key) CNone) (skipn lr fieldnames) d
  else d.

(** The first row the reader returns gives the field names; the rows
    that are [[]] are passed over. *)
Definition DictReader (lines : list string) : list RowDict * option Exception :=
  match csv_reader lines with
  | ([], ended) => ([], ended)
  | (fieldnames :: rows, ended) =>
      (map (dict_of_row fieldnames) (filter (fun row => negb (is_blank row)) rows), ended)
  end.

(** *** [_iter_csv] *)

(** An archive: its members and their text. *)
Definition ZipFile : Type := PyDict.dict (K := string) (V := string).

Definition open (z : ZipFile) (member : string) : Exception + string :=
  match PyDict.get String.eqb z member with
  | Some text => inr text
  | None => inl (KeyError member)
  end.

(** [v if v != "" else None] *)
Definition none_if_empty (v : Cell) : Cell :=
  match v with
  | CStr s => if s =? "" then CNone else v
  | _ => v
  end.

(** The same on a string as the reader returned it. *)
Definition cell_of (raw : string) : Cell := none_if_empty (CStr raw).

Definition coerce_item (kv : option string * Cell) : option string * Cell :=
  (fst kv, none_if_empty (snd kv)).

(** [{k: (v if v != "" else None) for k, v in row.items()}] *)
Definition coerce_row (row : RowDict) : RowDict :=
  PyDict.of_pairs key_eqb (map coerce_item (PyDict.items row)).

Definition _iter_csv (z : ZipFile) (member : string) : list RowDict * option Exception :=
  match open z member with
  | inl e => ([], Some e)
  | inr text =>
      let (rows, ended) := DictReader (readlines text) in
      (map coerce_row rows, ended)
  end.

(** *** [mta_static_source]

    A resource as the decorator declares it, and its generator. *)
Record Resource := mkResource {
  name : string;
  primary_key : option string;
  write_disposition : string;
  rows : list RowDict * option Exception
}.

Definition mta_static_source (zf : ZipFile) : list Resource :=
  [ mkResource "routes" (Some "route_id") "merge" (_iter_csv zf "routes.txt");
    mkResource "stops" (Some "stop_id") "merge" (_iter_csv zf "stops.txt");
    mkResource "trips" (Some "trip_id") "merge" (_iter_csv zf "trips.txt");
    mkResource "stop_times" None "append" (_iter_csv zf "stop_times.txt");
    mkResource "calendar" (Some "service_id") "merge" (_iter_csv zf "calendar.txt") ].



End Static.

(** ** The stand-alone script, [test_realtime_raw_payload.py] *)

Module RawPayload.

(** [get_feed_urls()]: the table of the real-time module, copied, and
    the alerts feed after it. *)
Definition get_feed_urls : PyDict.dict (K := string) (V := string) :=
  [ ("ace", "https://api-endpoint.mta.info/Dataservice/mtagtfsfeeds/nyct%2Fgtfs-ace");
    ("bdfm", "https://api-endpoint.mta.info/Dataservice/mtagtfsfeeds/nyct%2Fgtfs-bdfm");
    ("g", "https://api-endpoint.mta.info/Dataservice/mtagtfsfeeds/nyct%2Fgtfs-g");
    ("jz", "https://api-endpoint.mta.info/Dataservice/mtagtfsfeeds/nyct%2Fgtfs-jz");
    ("l", "https://api-endpoint.mta.info/Dataservice/mtagtfsfeeds/nyct%2Fgtfs-l");
    ("nqrw", "https://api-endpoint.mta.info/Dataservice/mtagtfsfeeds/nyct%2Fgtfs-nqrw");
    ("main", "https://api-endpoint.mta.info/Dataservice/mtagtfsfeeds/nyct%2Fgtfs");
    ("sir", "https://api-endpoint.mta.info/Dataservice/mtagtfsfeeds/nyct%2Fgtfs-si");
    ("alerts", "https://api-endpoint.mta.info/Dataservice/mtagtfsfeeds/camsys%2Fsubway-alerts") ].

(** The feeds [main] works on:
    [list(feed_urls.items()) if args.feed == "all" else [(args.feed, feed_urls[args.feed])]]. *)
Definition selected (feed : string) : Realtime.Exception + list (string * string) :=
  if feed =? "all" then inr (PyDict.items get_feed_urls)
  else
    match PyDict.get String.eqb get_feed_urls feed with
    | Some url => inr [(feed, url)]
    | None => inl (Realtime.KeyError feed)
    end.


End RawPayload.

(** ** The download of the static archive *)

Module StaticFetch.

Definition DEFAULT_GTFS_STATIC_ZIP : string :=
  "https://rrgtfsfeeds.s3.amazonaws.com/gtfs_supplemented.zip".

(** What can end the construction of the static source: an exception
    of the request, or [zipfile.BadZipFile] for a body that is not an
    archive. *)
Inductive Exception :=
| Request (e : Realtime.Exception)
| BadZipFile.

Section Fetch.
Variable requests_get : nat -> Realtime.Request -> Realtime.TransportFailure + Realtime.Response.
(** [zipfile.ZipFile(io.BytesIO(content))] *)
Variable ZipFile_of : list byte -> option Static.ZipFile.

Definition _download_zip (url : string) (w : Realtime.World)
  : (Exception + Static.ZipFile) * Realtime.World :=
  match Realtime.http_get requests_get (Realtime.mkRequest url None 60) w with
  | (inl e, w') => (inl (Request e), w')
  | (inr resp, w') =>
      match Realtime.raise_for_status resp with
      | Some e => (inl (Request e), w')
      | None =>
          match ZipFile_of (Realtime.content resp) with
          | Some zf => (inr zf, w')
          | None => (inl BadZipFile, w')
          end
      end
  end.

(** [mta_static_source(zip_url)]: the archive is downloaded when the
    source is built, and the five resources read that archive. *)
Definition mta_static_source (zip_url : option string) (w : Realtime.World)
  : (Exception + list Static.Resource) * Realtime.World :=
  let url := match zip_url with
             | Some u => if Realtime.truthy zip_url then u else DEFAULT_GTFS_STATIC_ZIP
             | None => DEFAULT_GTFS_STATIC_ZIP
             end in
  match _download_zip url w with
  | (inl e, w') => (inl e, w')
  | (inr zf, w') => (inr (Static.mta_static_source zf), w')
  end.

End Fetch.

End StaticFetch.

(** ** Writing rows

    The text a CSV writer of the same dialect gives for rows: a field
    is written as it is unless it holds a comma or a double quote, or
    is the empty and only field of its row; otherwise it is put between
    double quotes, with the double quotes in it doubled.  Fields with
    line ends in them are left out: they would span lines. *)

Module CsvText.

Definition plain_char (c : ascii) : bool :=
  negb (Ascii.eqb c Static.delimiter || Ascii.eqb c Static.quotechar
        || Static.is_newline c).

Fixpoint plain_chars (s : string) : bool :=
  match s with
  | "" => true
  | String c s' => plain_char c && plain_chars s'
  end.

Fixpoint no_newline (s : string) : bool :=
  match s with
  | "" => true
  | String c s' => negb (Static.is_newline c) && no_newline s'
  end.

(** A field the reader can give back: no line end in it, and not
    longer than the field limit. *)
Definition field_ok (f : string) : bool :=
  no_newline f && (Z.of_nat (String.length f) <=? Static.field_limit)%Z.

Fixpoint double_quotes (s : string) : string :=
  match s with
  | "" => ""
  | String c s' =>
      if Ascii.eqb c Static.quotechar
      then String c (String c (double_quotes s'))
      else String c (double_quotes s')
  end.

Definition quote_field (f : string) : string :=
  String Static.quotechar (double_quotes f ++ String Static.quotechar "").

Definition write_field (alone : bool) (f : string) : string :=
  if plain_chars f && negb (alone && (f =? "")) then f else quote_field f.

Fixpoint join_fields (row : list string) : string :=
  match row with
  | [] => ""
  | [f] => write_field false f
  | f :: row' => write_field false f ++ String Static.delimiter (join_fields row')
  end.

Definition write_row (row : list string) : string :=
  match row with
  | [f] => write_field true f
  | _ => join_fields row
  end.

Definition line_of (row : list string) : string :=
  Static.snoc (write_row row) Static.LF.

Fixpoint text_of (rows : list (list string)) : string :=
  match rows with
  | [] => ""
  | row :: rows' => line_of row ++ text_of rows'
  end.

(** The same text with every line ended by a carriage return and a
    line feed. *)
Fixpoint to_crlf (s : string) : string :=
  match s with
  | "" => ""
  | String c s' =>
      if Ascii.eqb c Static.LF then String Static.CR (String c (to_crlf s'))
      else String c (to_crlf s')
  end.

Fixpoint no_CR (s : string) : bool :=
  match s with
  | "" => true
  | String c s' => negb (Ascii.eqb c Static.CR) && no_CR s'
  end.

(** The characters of a string, without the end-of-line mark. *)
Fixpoint feed_chars (r : Static.ReaderObj) (s : string)
  : Static.Exception + Static.ReaderObj :=
  match s with
  | "" => inr r
  | String c rest =>
      match Static.parse_process_char r (Some c) with
      | inl e => inl e
      | inr r' => feed_chars r' rest
      end
  end.

(** The state the reader is in after a written field, read from the
    start of a record or of a field. *)
Definition state_after_field (alone : bool) (st : Static.ParserState) (f : string)
  : Static.ParserState :=
  if plain_chars f && negb (alone && (f =? ""))
  then (if f =? "" then st else Static.IN_FIELD)
  else Static.QUOTE_IN_QUOTED_FIELD.



End CsvText.

(** The request a resource sends for a feed name. *)
Definition request_for (api_key : option string) (name : string)
  : option Realtime.Request :=
  match PyDict.get String.eqb Realtime.FEED_URLS name with
  | Some url => Some (Realtime.mkRequest url (Realtime.headers_for api_key) 30)
  | None => None
  end.

(** ** A small world to run the definitions in

    Sub-messages and their conversions are plain strings here.  The
    feed served has an entity with both a trip update and a vehicle
    position, and two entities with an alert only; the clock moves on
    between the third and the fourth event. *)

Module Sample.
Import Realtime.

Definition e1 : FeedEntity string := mkEntity "E1" (Some "tu1") (Some "vp1") None.
Definition e2 : FeedEntity string := mkEntity "E2" None None (Some "al2").
Definition e3 : FeedEntity string := mkEntity "E3" None None (Some "al3").
Definition snapshot : FeedMessage string := mkFeed None [e1; e2; e3].

Definition to_dict (m : string) : string := m.
Definition serve_ok (t : nat) (r : Request) : TransportFailure + Response :=
  inr (mkResponse 200 []).
Definition serve_404 (t : nat) (r : Request) : TransportFailure + Response :=
  inr (mkResponse 404 []).
Definition clock (t : nat) : string :=
  if (t <? 3)%nat then "2024-01-01T00:00:00" else "2024-01-01T00:00:07".
Definition decode (body : list byte) : option (FeedMessage string) := Some snapshot.
Definition w0 : World := mkWorld 0 [].

(** A member with a short row, a blank line and a long row. *)
Definition stops_txt : string := "stop_id,stop_name
101

102,Van Cortlandt Park,surplus
".

(** A network that answers the first request and then is gone. *)
Definition serve_once (t : nat) (r : Request) : TransportFailure + Response :=
  if (t <? 3)%nat then inr (mkResponse 200 []) else inl ConnectionError.

(** A routes table, with a comma in a name and an empty column. *)
Definition routes_header : list string := ["route_id"; "route_long_name"; "route_desc"].
Definition routes_rows : list (list string) :=
  [ ["1"; "Broadway - 7 Avenue Local"; ""];
    ["A"; "8 Avenue, Express"; ""] ].
Definition routes_txt : string := CsvText.text_of (routes_header :: routes_rows).
Definition archive : Static.ZipFile := [("routes.txt", routes_txt)].
Definition unzip (body : list byte) : option Static.ZipFile := Some archive.
End Sample.

(** * Properties of the real-time module *)

Section RealtimeFacts.
Import Realtime.
Context {Message Dict : Type}.
Variable MessageToDict : Message -> Dict.
Variable default_instance : Message.
Variable requests_get : nat -> Request -> TransportFailure + Response.
Variable utcnow : nat -> string.
Variable ParseFromString : list byte -> option (FeedMessage Message).

Local Abbreviation rows_of := (rows_of MessageToDict default_instance).
Local Abbreviation row_for := (row_for MessageToDict default_instance).
Local Abbreviation iter_of := (iter_of MessageToDict default_instance utcnow).
Local Abbreviation _download_feed := (_download_feed requests_get ParseFromString).
Local Abbreviation fetch_raw_payload := (fetch_raw_payload requests_get).


(** One step of the loop of a generator. *)
Lemma rows_of_cons (k : Kind) (feed_name as_of : string)
  (e : FeedEntity Message) (es : list (FeedEntity Message)) :
  rows_of k feed_name as_of (e :: es) =
  (if HasField e (field_of k) then [row_for k feed_name as_of e] else [])
  ++ rows_of k feed_name as_of es.
Proof.
  destruct k; cbn [Realtime.rows_of field_of];
    [ cbn [trip_updates_of] | cbn [vehicle_positions_of] | cbn [alerts_of] ];
    match goal with |- context [HasField e ?n] => destruct (HasField e n) end;
    reflexivity.
Qed.

Lemma rows_of_filter (k : Kind) (feed_name as_of : string)
  (es : list (FeedEntity Message)) :
  rows_of k feed_name as_of es =
  map (row_for k feed_name as_of) (filter (fun e => HasField e (field_of k)) es).
Proof.
  induction es as [|e es IH].
  - destruct k; reflexivity.
  - rewrite rows_of_cons, IH. cbn [filter].
    destruct (HasField e (field_of k)); reflexivity.
Qed.


Lemma iter_of_rows (k : Kind) (feed_name : string)
  (feed_msg : FeedMessage Message) (w : World) :
  iter_of k feed_name feed_msg w =
  (rows_of k feed_name (utcnow (tick w)) (entity feed_msg), emit EvNow w).
Proof. destruct k; reflexivity. Qed.

Lemma filter_none {A} (p : A -> bool) (l : list A) :
  (forall x, In x l -> p x = false) -> filter p l = [].
Proof.
  induction l as [|a l IH]; intros H; [reflexivity|].
  cbn. rewrite (H a (or_introl eq_refl)). apply IH.
  intros x Hx. apply H. right. exact Hx.
Qed.

(** C1.  For every decoded snapshot, feed name and kind, the generator
    of that kind yields one row for each entity whose sub-message of
    the kind is set, and for no other: the rows are the images, in the
    order of the snapshot, of the entities that pass [HasField]; their
    identifiers are those of these entities, repetitions included;
    their number is the number of such entities; and when no entity
    has the sub-message the generator yields the empty list. *)
Theorem normalizer_keeps_populated_in_order
  (k : Kind) (feed_name : string) (feed_msg : FeedMessage Message) (w : World) :
  let kept := filter (fun e => HasField e (field_of k)) (entity feed_msg) in
  let rows := fst (iter_of k feed_name feed_msg w) in
  rows = map (row_for k feed_name (utcnow (tick w))) kept
  /\ map entity_id rows = map id kept
  /\ Forall (fun r => feed r = feed_name /\ fst (payload r) = field_of k) rows
  /\ List.length rows = List.length kept
  /\ ((forall e, In e (entity feed_msg) -> HasField e (field_of k) = false) ->
      rows = []).
Proof.
  intros kept rows. subst rows. rewrite iter_of_rows. cbn [fst].
  rewrite rows_of_filter. fold kept.
  split; [reflexivity|].
  split; [rewrite map_map; reflexivity|].
  split; [apply Forall_forall; intros r Hr; apply in_map_iff in Hr;
          destruct Hr as [e [<- _]]; split; reflexivity|].
  split; [apply length_map|].
  intros Hnone. subst kept. rewrite filter_none by exact Hnone. reflexivity.
Qed.


Lemma decoded_in_app (l1 l2 : list Event) :
  decoded_in (l1 ++ l2) = decoded_in l1 ++ decoded_in l2.
Proof.
  induction l1 as [|ev l1 IH]; [reflexivity|].
  destruct ev; cbn; rewrite IH; reflexivity.
Qed.

(** The other side of [raise_for_status]: a response whose status is
    not between 400 and 599 is handed to the decoder, whatever the
    status is. *)
Lemma other_status_is_decoded (url : string) (api_key : option string)
  (w : World) (resp : Response) :
  requests_get (tick w) (mkRequest url (headers_for api_key) 30) = inr resp ->
  ~ (400 <= status_code resp < 600)%Z ->
  decoded_in (log (snd (_download_feed url api_key w)))
  = decoded_in (log w) ++ [content resp].
Proof.
  intros Hget Hst.
  unfold Realtime._download_feed, bind, http_get. rewrite Hget.
  unfold check_status, raise_for_status.
  replace ((400 <=? status_code resp) && (status_code resp <? 600))%Z with false.
  - unfold ret, parse.
    destruct (ParseFromString (content resp)); cbn;
      rewrite !decoded_in_app; cbn; rewrite app_nil_r; reflexivity.
  - symmetry. apply andb_false_iff.
    destruct (Z.leb_spec 400 (status_code resp)); [|left; reflexivity].
    right. apply Z.ltb_ge. lia.
Qed.


(** C9.  An API key that is the empty string is treated as no key: no
    headers are built, the request sent carries none, and the whole
    fetch is the one made without a key; the same holds for the raw
    fetch of the stand-alone script. *)
Theorem empty_api_key_is_no_api_key (url : string) (timeout : Z) (w : World) :
  headers_for (Some "") = None
  /\ headers_for (Some "") = headers_for None
  /\ _download_feed url (Some "") w = _download_feed url None w
  /\ fetch_raw_payload url (Some "") timeout w = fetch_raw_payload url None timeout w
  /\ (exists rest,
       log (snd (_download_feed url (Some "") w))
       = log w ++ EvGet (mkRequest url None 30) :: rest)
  /\ log (snd (fetch_raw_payload url (Some "") timeout w))
     = log w ++ [EvGet (mkRequest url None timeout)].
Proof.
  split; [reflexivity|]. split; [reflexivity|].
  split; [reflexivity|]. split; [reflexivity|].
  split.
  - unfold Realtime._download_feed, bind, http_get. cbn [headers_for truthy String.eqb negb].
    destruct (requests_get (tick w) (mkRequest url None 30)) as [f|resp].
    + exists []. reflexivity.
    + unfold check_status. destruct (raise_for_status resp) as [e|].
      * exists []. reflexivity.
      * unfold ret, parse. cbn [fst snd].
        destruct (ParseFromString (content resp));
          exists [EvParse (content resp)]; cbn; rewrite <- app_assoc; reflexivity.
  - unfold Realtime.fetch_raw_payload, bind, http_get. cbn [headers_for truthy String.eqb negb].
    destruct (requests_get (tick w) (mkRequest url None timeout)) as [f|resp].
    + reflexivity.
    + unfold check_status. destruct (raise_for_status resp) as [e|]; reflexivity.
Qed.

Local Abbreviation for_feeds := (for_feeds requests_get ParseFromString).
Local Abbreviation resource_of :=
  (resource_of MessageToDict default_instance requests_get utcnow ParseFromString).

Lemma requests_in_app (l1 l2 : list Event) :
  requests_in (l1 ++ l2) = requests_in l1 ++ requests_in l2.
Proof.
  induction l1 as [|ev l1 IH]; [reflexivity|].
  destruct ev; cbn; rewrite IH; reflexivity.
Qed.

Lemma resource_of_for_feeds (k : Kind) (api_key : option string)
  (feeds : option (list string)) :
  resource_of k api_key feeds = for_feeds (iter_of k) api_key (selected feeds).
Proof. destruct k; reflexivity. Qed.

Lemma selected_nonempty (n : string) (l : list string) :
  selected (Some (n :: l)) = n :: l.
Proof. reflexivity. Qed.

(** A resource handles a list of names part by part, and stops at the
    first part that ends with an exception. *)
Lemma for_feeds_app (iter : string -> FeedMessage Message -> World -> list (Row Dict) * World)
  (api_key : option string) (l1 l2 : list string) (w : World) :
  for_feeds iter api_key (l1 ++ l2) w =
  match for_feeds iter api_key l1 w with
  | ((rows1, None), w1) =>
      let '((rows2, ended), w2) := for_feeds iter api_key l2 w1 in
      ((rows1 ++ rows2, ended), w2)
  | ((rows1, Some e), w1) => ((rows1, Some e), w1)
  end.
Proof.
  revert w. induction l1 as [|n l1 IH]; intros w.
  - cbn. destruct (for_feeds iter api_key l2 w) as [[rows2 ended] w2]. reflexivity.
  - cbn [app Realtime.for_feeds].
    destruct (PyDict.get String.eqb FEED_URLS n) as [url|]; [|reflexivity].
    destruct (_download_feed url api_key w) as [[e|feed_msg] w1]; [reflexivity|].
    destruct (iter n feed_msg w1) as [rows w2].
    rewrite IH.
    destruct (for_feeds iter api_key l1 w2) as [[rows1 [e|]] w3]; [reflexivity|].
    destruct (for_feeds iter api_key l2 w3) as [[rows2 ended] w4].
    rewrite app_assoc. reflexivity.
Qed.

(** Where the list holds a name that is not a key of [FEED_URLS], the
    resource does not end normally. *)
Lemma for_feeds_unknown_ends
  (iter : string -> FeedMessage Message -> World -> list (Row Dict) * World)
  (api_key : option string)
  (names : list string) (bad : string) (w : World) :
  In bad names -> PyDict.get String.eqb FEED_URLS bad = None ->
  snd (fst (for_feeds iter api_key names w)) <> None.
Proof.
  revert w. induction names as [|n names IH]; intros w Hin Hbad; [destruct Hin|].
  cbn [Realtime.for_feeds].
  destruct (PyDict.get String.eqb FEED_URLS n) as [url|] eqn:Hn; [|discriminate].
  destruct Hin as [->|Hin]; [congruence|].
  destruct (_download_feed url api_key w) as [[e|feed_msg] w1]; [discriminate|].
  destruct (iter n feed_msg w1) as [rows w2].
  specialize (IH w2 Hin Hbad).
  destruct (for_feeds iter api_key names w2) as [[rows' ended] w3].
  exact IH.
Qed.

(** C3, as the code has it.  Building the source looks nothing up and
    cannot fail.  A resource run over a list that holds an unknown
    name never ends normally, so the name is not skipped; it first
    does everything the names listed before the unknown one ask for,
    keeps the rows they gave, and, when none of them failed, ends with
    [KeyError] carrying the unknown name, the names after it left
    untouched. *)
Theorem unknown_feed_raises_when_reached
  (k : Kind) (api_key : option string) (known rest : list string)
  (bad : string) (w : World) :
  PyDict.get String.eqb FEED_URLS bad = None ->
  let feeds := Some (known ++ bad :: rest) in
  List.length (mta_rt_source MessageToDict default_instance requests_get utcnow
                 ParseFromString api_key feeds) = 3
  /\ snd (fst (resource_of k api_key feeds w)) <> None
  /\ resource_of k api_key feeds w =
     let '((rows, ended), w') := for_feeds (iter_of k) api_key known w in
     ((rows, Some (match ended with None => KeyError bad | Some e => e end)), w').
Proof.
  intros Hbad feeds. subst feeds.
  split; [reflexivity|].
  assert (Hsel : selected (Some (known ++ bad :: rest)) = known ++ bad :: rest).
  { destruct known; reflexivity. }
  rewrite !resource_of_for_feeds, Hsel.
  split.
  - apply for_feeds_unknown_ends with (bad := bad); [|exact Hbad].
    apply in_or_app. right. left. reflexivity.
  - assert (Hstop : forall w', for_feeds (iter_of k) api_key (bad :: rest) w'
                               = (([], Some (KeyError bad)), w')).
    { intros w'. cbn [Realtime.for_feeds]. rewrite Hbad. reflexivity. }
    rewrite for_feeds_app.
    destruct (for_feeds (iter_of k) api_key known w) as [[rows [e|]] w'];
      [reflexivity|].
    rewrite Hstop, app_nil_r. reflexivity.
Qed.

(** C8.  With no list of feeds, or an empty one, the names selected
    are the keys of [FEED_URLS] in the order of the table, eight names
    without repetition; a single known name selects itself, and a
    resource run on it sends exactly one request, to the URL the table
    gives for the name. *)
Theorem default_selection_and_single_feed :
  selected None = PyDict.keys FEED_URLS
  /\ selected (Some []) = PyDict.keys FEED_URLS
  /\ PyDict.keys FEED_URLS = ["ace"; "bdfm"; "g"; "jz"; "l"; "nqrw"; "main"; "sir"]
  /\ NoDup (PyDict.keys FEED_URLS)
  /\ Forall (fun n => PyDict.get String.eqb FEED_URLS n <> None) (selected None)
  /\ (forall (k : Kind) (api_key : option string) (name url : string) (w : World),
       PyDict.get String.eqb FEED_URLS name = Some url ->
       selected (Some [name]) = [name]
       /\ requests_in (log (snd (resource_of k api_key (Some [name]) w)))
          = requests_in (log w) ++ [mkRequest url (headers_for api_key) 30]).
Proof.
  split; [reflexivity|]. split; [reflexivity|]. split; [reflexivity|].
  split.
  { cbn. repeat (constructor; [cbn; intuition discriminate|]). constructor. }
  split.
  { cbn. repeat (constructor; [discriminate|]). constructor. }
  intros k api_key name url w Hurl. split; [reflexivity|].
  rewrite resource_of_for_feeds, selected_nonempty.
  cbn [Realtime.for_feeds]. rewrite Hurl.
  unfold Realtime._download_feed, bind, http_get.
  set (req := mkRequest url (headers_for api_key) 30).
  assert (Hget : requests_in (log (emit (EvGet req) w)) = requests_in (log w) ++ [req]).
  { cbn. rewrite requests_in_app. reflexivity. }
  destruct (requests_get (tick w) req) as [f|resp]; [exact Hget|].
  unfold check_status. destruct (raise_for_status resp) as [e|]; [exact Hget|].
  unfold ret, parse.
  assert (Hparse : requests_in (log (emit (EvParse (content resp)) (emit (EvGet req) w)))
                   = requests_in (log w) ++ [req]).
  { cbn. rewrite !requests_in_app. cbn. rewrite app_nil_r. reflexivity. }
  destruct (ParseFromString (content resp)) as [feed_msg|]; [|exact Hparse].
  rewrite iter_of_rows. cbn [fst snd].
  cbn [log emit]. rewrite !requests_in_app. cbn. rewrite !app_nil_r. reflexivity.
Qed.

End RealtimeFacts.

(** C5.  The rows a generator yields from one decoded feed all carry the
    one reading of the clock the generator made, and so do all the rows
    of a resource run on a single feed; but each resource fetches the
    feed again and reads the clock again, so the rows two resources
    yield for one feed, even for one entity, can differ in [as_of]. *)
Theorem as_of_shared_within_one_fetch_only
  (Message Dict : Type) (MessageToDict : Message -> Dict) (default_instance : Message) :
  (forall utcnow k feed_name feed_msg w r1 r2,
      let rows := fst (Realtime.iter_of MessageToDict default_instance utcnow
                         k feed_name feed_msg w) in
      In r1 rows -> In r2 rows ->
      Realtime.as_of r1 = utcnow (Realtime.tick w)
      /\ Realtime.as_of r1 = Realtime.as_of r2)
  /\ (forall requests_get utcnow ParseFromString k api_key name w r1 r2,
      let rows := fst (fst (Realtime.resource_of MessageToDict default_instance
                              requests_get utcnow ParseFromString
                              k api_key (Some [name]) w)) in
      In r1 rows -> In r2 rows -> Realtime.as_of r1 = Realtime.as_of r2)
  /\ (exists requests_get utcnow ParseFromString api_key w,
      let first := Realtime.trip_updates MessageToDict default_instance
                     requests_get utcnow ParseFromString api_key (Some ["ace"]) w in
      let second := Realtime.vehicle_positions MessageToDict default_instance
                      requests_get utcnow ParseFromString api_key (Some ["ace"])
                      (snd first) in
      (exists r1 r2,
          In r1 (fst (fst first)) /\ In r2 (fst (fst second))
          /\ Realtime.feed r1 = Realtime.feed r2
          /\ Realtime.entity_id r1 = Realtime.entity_id r2
          /\ Realtime.as_of r1 <> Realtime.as_of r2)
      /\ List.length (Realtime.requests_in (Realtime.log (snd first))) = 1
      /\ List.length (Realtime.requests_in (Realtime.log (snd second))) = 2).
Proof.
  assert (Hone : forall utcnow k feed_name feed_msg w r,
    In r (fst (Realtime.iter_of MessageToDict default_instance utcnow
                 k feed_name feed_msg w)) ->
    Realtime.as_of r = utcnow (Realtime.tick w)).
  { intros utcnow k feed_name feed_msg w r. rewrite iter_of_rows, rows_of_filter.
    cbn [fst]. intros Hr. apply in_map_iff in Hr. destruct Hr as [e [<- _]].
    reflexivity. }
  split; [|split].
  - intros utcnow k feed_name feed_msg w r1 r2 rows H1 H2. subst rows.
    rewrite (Hone _ _ _ _ _ _ H1), (Hone _ _ _ _ _ _ H2). split; reflexivity.
  - intros requests_get utcnow ParseFromString k api_key name w r1 r2 rows.
    subst rows. rewrite resource_of_for_feeds, selected_nonempty.
    cbn [Realtime.for_feeds].
    destruct (PyDict.get String.eqb Realtime.FEED_URLS name) as [url|];
      [|intros []].
    destruct (Realtime._download_feed requests_get ParseFromString url api_key w)
      as [[e|feed_msg] w1]; [intros []|].
    destruct (Realtime.iter_of MessageToDict default_instance utcnow k name feed_msg w1)
      as [rows w2] eqn:Hiter.
    cbn [fst]. rewrite app_nil_r. intros H1 H2.
    assert (Hrows : rows = fst (Realtime.iter_of MessageToDict default_instance utcnow
                                  k name feed_msg w1)) by (rewrite Hiter; reflexivity).
    rewrite Hrows in H1, H2.
    rewrite (Hone _ _ _ _ _ _ H1), (Hone _ _ _ _ _ _ H2). reflexivity.
  - exists Sample.serve_ok, Sample.clock.
    exists (fun _ => Some (Realtime.mkFeed None
              [Realtime.mkEntity "E1" (Some default_instance) (Some default_instance) None])).
    exists None, Sample.w0.
    cbn. split; [|split; reflexivity].
    eexists. eexists.
    split; [left; reflexivity|]. split; [left; reflexivity|].
    cbn. split; [reflexivity|]. split; [reflexivity|]. discriminate.
Qed.

(** ** The real-time properties at work in the sample world *)

Section RealtimeRuns.
Import Realtime Sample.

Local Abbreviation run_iter := (iter_of to_dict "" clock).
Local Abbreviation run_rows := (rows_of to_dict "").
Local Abbreviation run_resource := (resource_of to_dict "" serve_ok clock decode).

(** A snapshot with an alert only yields no trip update. *)
Lemma normalizer_keeps_populated_in_order_witness :
  (forall e, In e [e2] -> HasField e (field_of TripUpdate) = false)
  /\ fst (run_iter TripUpdate "ace" (mkFeed None [e2]) w0) = [].
Proof.
  assert (H : forall e, In e [e2] -> HasField e (field_of TripUpdate) = false).
  { intros e [<-|[]]. reflexivity. }
  split; [exact H|].
  destruct (normalizer_keeps_populated_in_order to_dict "" clock
              TripUpdate "ace" (mkFeed None [e2]) w0) as (_ & _ & _ & _ & Hnone).
  exact (Hnone H).
Defined.



(** The claim of C3 fails on the list ["ace"; "nope"]: building the
    source succeeds, and the trip-update resource fetches ["ace"] and
    yields its row before the unknown name ends it with [KeyError]. *)
Lemma unknown_feed_after_known_gives_partial_rows :
  let out := trip_updates to_dict "" serve_ok clock decode None (Some ["ace"; "nope"]) w0 in
  PyDict.get String.eqb FEED_URLS "nope" = None
  /\ List.length (mta_rt_source to_dict "" serve_ok clock decode None
                    (Some ["ace"; "nope"])) = 3
  /\ fst (fst out) = [mkRow "ace" "E1" "2024-01-01T00:00:00" ("trip_update", "tu1")]
  /\ fst (fst out) <> []
  /\ snd (fst out) = Some (KeyError "nope")
  /\ List.length (requests_in (log (snd out))) = 1.
Proof.
  cbn. repeat split; try reflexivity. discriminate.
Defined.

Lemma unknown_feed_raises_when_reached_witness :
  PyDict.get String.eqb FEED_URLS "nope" = None
  /\ run_resource Alert None (Some (["ace"] ++ "nope" :: ["g"])) w0
     = (([mkRow "ace" "E2" "2024-01-01T00:00:00" ("alert", "al2");
          mkRow "ace" "E3" "2024-01-01T00:00:00" ("alert", "al3")],
         Some (KeyError "nope")),
        mkWorld 3 [EvGet (mkRequest
                            "https://api-endpoint.mta.info/Dataservice/mtagtfsfeeds/nyct%2Fgtfs-ace"
                            None 30);
                   EvParse []; EvNow]).
Proof.
  split; [reflexivity|].
  destruct (unknown_feed_raises_when_reached to_dict "" serve_ok clock decode
              Alert None ["ace"] ["g"] "nope" w0 eq_refl) as (_ & _ & Heq).
  rewrite Heq. reflexivity.
Defined.

Lemma default_selection_and_single_feed_witness :
  PyDict.get String.eqb FEED_URLS "g"
    = Some "https://api-endpoint.mta.info/Dataservice/mtagtfsfeeds/nyct%2Fgtfs-g"
  /\ selected (Some ["g"]) = ["g"]
  /\ requests_in (log (snd (run_resource VehiclePosition (Some "key") (Some ["g"]) w0)))
     = [mkRequest "https://api-endpoint.mta.info/Dataservice/mtagtfsfeeds/nyct%2Fgtfs-g"
          (Some [("x-api-key", "key")]) 30].
Proof.
  split; [reflexivity|].
  destruct (default_selection_and_single_feed to_dict "" serve_ok clock decode)
    as (_ & _ & _ & _ & _ & Hsingle).
  exact (Hsingle VehiclePosition (Some "key") "g" _ w0 eq_refl).
Defined.

Lemma as_of_shared_within_one_fetch_only_witness :
  let rows := fst (run_iter TripUpdate "ace" (mkFeed None [e1; e2; e1]) w0) in
  let r1 := mkRow "ace" "E1" (clock 0) ("trip_update", "tu1") in
  let served := fst (fst (run_resource Alert None (Some ["ace"]) w0)) in
  let r2 := mkRow "ace" "E2" (clock 2) ("alert", "al2") in
  let r3 := mkRow "ace" "E3" (clock 2) ("alert", "al3") in
  In r1 rows /\ List.length rows = 2 /\ as_of r1 = clock (tick w0)
  /\ In r2 served /\ In r3 served /\ as_of r2 = as_of r3.
Proof.
  intros rows r1 served r2 r3.
  assert (H1 : In r1 rows) by (left; reflexivity).
  assert (H2 : In r2 served) by (left; reflexivity).
  assert (H3 : In r3 served) by (right; left; reflexivity).
  destruct (as_of_shared_within_one_fetch_only string string to_dict "")
    as (Hiter & Hres & _).
  split; [exact H1|]. split; [reflexivity|].
  split; [exact (proj1 (Hiter clock TripUpdate "ace" (mkFeed None [e1; e2; e1]) w0
                          r1 r1 H1 H1))|].
  split; [exact H2|]. split; [exact H3|].
  exact (Hres serve_ok clock decode Alert None "ace" w0 r2 r3 H2 H3).
Defined.

End RealtimeRuns.

(** * Properties of dictionaries *)

Section PyDictFacts.
Import PyDict.
Context {K V : Type}.
Variable eqb : K -> K -> bool.
Hypothesis eqb_eq : forall a b, eqb a b = true <-> a = b.

Local Abbreviation get := (get eqb).
Local Abbreviation set := (set eqb).
Local Abbreviation step := (fun (d : list (K * V)) kv => set d (fst kv) (snd kv)).

Lemma eqb_refl (a : K) : eqb a a = true.
Proof. apply eqb_eq. reflexivity. Qed.




Lemma set_absent (d : list (K * V)) (k : K) (v : V) :
  ~ In k (keys d) -> set d k v = d ++ [(k, v)].
Proof.
  induction d as [|[k' v'] d IH]; [reflexivity|].
  cbn. intros H. destruct (eqb k k') eqn:E.
  - apply eqb_eq in E. subst. exfalso. apply H. left. reflexivity.
  - rewrite IH; [reflexivity|]. intros Hin. apply H. right. exact Hin.
Qed.


(** Assigning pairs one after the other to a dictionary that has none
    of their keys, the keys being distinct, appends them. *)
Lemma fold_set_fresh (l : list (K * V)) (d : list (K * V)) :
  NoDup (keys d ++ map fst l) -> fold_left step l d = d ++ l.
Proof.
  revert d. induction l as [|[k v] l IH]; intros d H.
  - cbn. symmetry. apply app_nil_r.
  - cbn [fold_left fst snd].
    assert (Hk : ~ In k (keys d)).
    { cbn in H. apply NoDup_remove_2 in H. intros Hin. apply H.
      apply in_or_app. left. exact Hin. }
    rewrite set_absent by exact Hk.
    rewrite IH.
    + rewrite <- app_assoc. reflexivity.
    + unfold keys in *. rewrite map_app. cbn. rewrite <- app_assoc. exact H.
Qed.

Lemma of_pairs_nodup (l : list (K * V)) :
  NoDup (map fst l) -> of_pairs eqb l = l.
Proof. intros H. unfold of_pairs. rewrite fold_set_fresh; [reflexivity | exact H]. Qed.




Lemma keys_set_nodup (d : list (K * V)) (k : K) (v : V) :
  NoDup (keys d) -> NoDup (keys (set d k v)).
Proof.
  intros Hd. induction d as [|[k' v'] d IH]; cbn.
  - constructor; [intros [] | constructor].
  - cbn in Hd. inversion Hd as [|? ? Hk' Hd']; subst.
    destruct (eqb k k') eqn:E; cbn; [constructor; assumption|].
    constructor; [|apply IH; exact Hd'].
    intros Hin. apply Hk'. clear IH Hd Hd' Hk'.
    induction d as [|[k1 v1] d IHd]; cbn in *.
    + destruct Hin as [Hin|[]]. subst. rewrite eqb_refl in E. discriminate.
    + destruct (eqb k k1); cbn in Hin; destruct Hin as [Hin|Hin]; auto.
Qed.

Lemma keys_fold_set_nodup (l : list (K * V)) (d : list (K * V)) :
  NoDup (keys d) -> NoDup (keys (fold_left step l d)).
Proof.
  revert d. induction l as [|[k v] l IH]; intros d Hd; [exact Hd|].
  cbn [fold_left]. apply IH, keys_set_nodup, Hd.
Qed.

End PyDictFacts.

(** * Properties of the static module *)

Section StaticFacts.
Import PyDict Static.

Local Abbreviation get := (get key_eqb).
Local Abbreviation set := (set key_eqb).
Local Abbreviation step :=
  (fun (d : list (option string * Cell)) kv => set d (fst kv) (snd kv)).

Lemma key_eqb_eq (a b : option string) : key_eqb a b = true <-> a = b.
Proof.
  destruct a as [x|], b as [y|]; cbn; try (split; [discriminate | discriminate]).
  - rewrite String.eqb_eq. split; congruence.
  - split; reflexivity.
Qed.

Lemma none_if_empty_CStr (raw : string) : none_if_empty (CStr raw) = cell_of raw.
Proof. reflexivity. Qed.


(** The short-row loop of [DictReader] as a run of assignments. *)
Lemma fold_restval (l : list string) (d : RowDict) :
  fold_left (fun d key => set d (Some key) CNone) l d
  = fold_left step (map (fun key => (Some key, CNone)) l) d.
Proof.
  revert d. induction l as [|key l IH]; intros d; [reflexivity|].
  cbn. apply IH.
Qed.

Lemma dict_of_row_nodup (fieldnames row : list string) :
  NoDup (keys (dict_of_row fieldnames row)).
Proof.
  assert (H0 : NoDup (keys (of_pairs key_eqb
                 (combine (map Some fieldnames) (map CStr row))))).
  { apply (keys_fold_set_nodup (V := Cell) key_eqb key_eqb_eq). constructor. }
  unfold dict_of_row.
  destruct (List.length fieldnames <? List.length row)%nat.
  - apply (keys_set_nodup (V := Cell) key_eqb key_eqb_eq), H0.
  - destruct (List.length row <? List.length fieldnames)%nat; [|exact H0].
    rewrite fold_restval. apply (keys_fold_set_nodup (V := Cell) key_eqb key_eqb_eq), H0.
Qed.

(** On a dictionary the comprehension of [_iter_csv] changes the
    values and nothing else. *)
Lemma coerce_row_map (d : RowDict) :
  NoDup (keys d) -> coerce_row d = map coerce_item d.
Proof.
  intros H. unfold coerce_row, items.
  apply (of_pairs_nodup (V := Cell) key_eqb key_eqb_eq).
  rewrite map_map. exact H.
Qed.


Lemma keys_combine_in (fs : list string) (vs : list Cell) (k : option string) :
  In k (keys (combine (map Some fs) vs)) -> exists f, k = Some f /\ In f fs.
Proof.
  revert vs. induction fs as [|f fs IH]; intros vs; [intros []|].
  destruct vs as [|v vs]; [intros []|].
  cbn. intros [<-|Hin].
  - exists f. split; [reflexivity | left; reflexivity].
  - destruct (IH vs Hin) as [f' [-> Hf']]. exists f'. split; [reflexivity | right; exact Hf'].
Qed.




(** *** Rows under a header without repeated names *)

Lemma nodup_map_Some {A} (l : list A) : NoDup l -> NoDup (map Some l).
Proof.
  induction 1 as [|a l Ha Hl IH]; cbn; constructor; [|exact IH].
  intros Hin. apply in_map_iff in Hin. destruct Hin as [b [E Hb]].
  injection E as ->. contradiction.
Qed.

Lemma keys_combine_nodup (fs : list string) (vs : list Cell) :
  NoDup fs -> NoDup (map fst (combine (map Some fs) vs)).
Proof.
  revert vs. induction fs as [|f fs IH]; intros vs H; [constructor|].
  destruct vs as [|v vs]; [constructor|].
  inversion H as [|? ? Hf Hfs]; subst. cbn. constructor; [|apply IH; exact Hfs].
  intros Hin. apply (keys_combine_in fs vs) in Hin.
  destruct Hin as [f' [E Hin]]. injection E as <-. contradiction.
Qed.

Lemma keys_combine_short (fs : list string) (vs : list Cell) :
  List.length vs <= List.length fs ->
  keys (combine (map Some fs) vs) = map Some (firstn (List.length vs) fs).
Proof.
  revert vs. induction fs as [|f fs IH]; intros vs H.
  - destruct vs; [reflexivity | cbn in H; lia].
  - destruct vs as [|v vs]; [reflexivity|].
    cbn. f_equal. apply IH. cbn in H. lia.
Qed.

Lemma combine_pad (fs : list string) (vs : list Cell) :
  List.length vs <= List.length fs ->
  combine (map Some fs) (vs ++ repeat CNone (List.length fs - List.length vs))
  = combine (map Some fs) vs
    ++ map (fun key => (Some key, CNone)) (skipn (List.length vs) fs).
Proof.
  revert vs. induction fs as [|f fs IH]; intros vs H.
  - destruct vs; [reflexivity | cbn in H; lia].
  - destruct vs as [|v vs].
    + cbn. f_equal. specialize (IH [] (Nat.le_0_l _)).
      cbn in IH. rewrite Nat.sub_0_r, combine_nil in IH. exact IH.
    + cbn. f_equal. apply IH. cbn in H. lia.
Qed.

(** The dictionary [DictReader] builds for a row, in full. *)
Lemma dict_of_row_exact (fieldnames row : list string) :
  NoDup fieldnames ->
  dict_of_row fieldnames row
  = combine (map Some fieldnames)
      (map CStr row ++ repeat CNone (List.length fieldnames - List.length row))
    ++ (if (List.length fieldnames <? List.length row)%nat
        then [(None, CList (skipn (List.length fieldnames) row))] else []).
Proof.
  intros Hnd.
  assert (H0 : of_pairs key_eqb (combine (map Some fieldnames) (map CStr row))
               = combine (map Some fieldnames) (map CStr row)).
  { apply (of_pairs_nodup (V := Cell) key_eqb key_eqb_eq), keys_combine_nodup, Hnd. }
  unfold dict_of_row. rewrite H0.
  destruct (List.length fieldnames <? List.length row)%nat eqn:Hlong.
  - apply Nat.ltb_lt in Hlong.
    replace (List.length fieldnames - List.length row) with 0 by lia.
    cbn [repeat]. rewrite app_nil_r.
    apply (set_absent (V := Cell) key_eqb key_eqb_eq).
    intros Hin. apply keys_combine_in in Hin. destruct Hin as [f [E _]]. discriminate.
  - apply Nat.ltb_ge in Hlong. rewrite app_nil_r.
    destruct (List.length row <? List.length fieldnames)%nat eqn:Hshort.
    + rewrite fold_restval, (fold_set_fresh (V := Cell) key_eqb key_eqb_eq).
      * rewrite <- (length_map CStr row). rewrite combine_pad; [reflexivity|].
        rewrite length_map. exact Hlong.
      * rewrite keys_combine_short by (rewrite length_map; exact Hlong).
        rewrite map_map. cbn. rewrite length_map, <- map_app, firstn_skipn.
        apply nodup_map_Some, Hnd.
    + apply Nat.ltb_ge in Hshort.
      replace (List.length fieldnames - List.length row) with 0 by lia.
      cbn [repeat]. rewrite app_nil_r. reflexivity.
Qed.

Lemma map_combine_values {A B C} (f : B -> C) (ks : list A) (vs : list B) :
  map (fun kv => (fst kv, f (snd kv))) (combine ks vs) = combine ks (map f vs).
Proof.
  revert vs. induction ks as [|k ks IH]; intros vs; [reflexivity|].
  destruct vs as [|v vs]; [reflexivity|]. cbn. f_equal. apply IH.
Qed.

Lemma map_repeat_CNone (n : nat) : map none_if_empty (repeat CNone n) = repeat CNone n.
Proof. induction n as [|n IH]; [reflexivity|]. cbn. f_equal. exact IH. Qed.

(** What [_iter_csv] yields for a row, in full. *)
Lemma coerce_dict_of_row_exact (fieldnames row : list string) :
  NoDup fieldnames ->
  coerce_row (dict_of_row fieldnames row)
  = combine (map Some fieldnames)
      (map cell_of row ++ repeat CNone (List.length fieldnames - List.length row))
    ++ (if (List.length fieldnames <? List.length row)%nat
        then [(None, CList (skipn (List.length fieldnames) row))] else []).
Proof.
  intros Hnd. rewrite coerce_row_map by apply dict_of_row_nodup.
  rewrite dict_of_row_exact by exact Hnd.
  rewrite map_app. unfold coerce_item. rewrite map_combine_values.
  rewrite map_app, map_map, map_repeat_CNone.
  f_equal. destruct (List.length fieldnames <? List.length row)%nat; reflexivity.
Qed.

(** [_iter_csv] in terms of the rows the reader returns. *)
Lemma iter_csv_rows (z : ZipFile) (member text : string)
  (fieldnames : list string) (rows : list (list string)) (ended : option Exception) :
  open z member = inr text ->
  csv_reader (readlines text) = (fieldnames :: rows, ended) ->
  _iter_csv z member
  = (map (fun row => coerce_row (dict_of_row fieldnames row))
       (filter (fun row => negb (is_blank row)) rows),
     ended).
Proof.
  intros Hopen Hread. unfold _iter_csv, DictReader. rewrite Hopen, Hread.
  rewrite map_map. reflexivity.
Qed.



(** C7, as the code has it.  A row with another number of columns
    than the header is not an error: the member yields a mapping for
    every row the reader returns after the header, blank lines apart,
    and ends the way the reader ends.  Under a header without repeated
    names, a row that is too short gives the header's names with the
    missing columns null, and a row that is too long gives the
    header's names with their columns, followed by the null key
    holding the list of the surplus values. *)
Theorem column_count_mismatch_is_not_an_error :
  (forall z member text fieldnames rows ended,
      open z member = inr text ->
      csv_reader (readlines text) = (fieldnames :: rows, ended) ->
      snd (_iter_csv z member) = ended
      /\ List.length (fst (_iter_csv z member))
         = List.length (filter (fun row => negb (is_blank row)) rows))
  /\ (forall fieldnames row,
      NoDup fieldnames -> List.length row < List.length fieldnames ->
      coerce_row (dict_of_row fieldnames row)
      = combine (map Some fieldnames)
          (map cell_of row
           ++ repeat CNone (List.length fieldnames - List.length row)))
  /\ (forall fieldnames row,
      NoDup fieldnames -> List.length fieldnames < List.length row ->
      coerce_row (dict_of_row fieldnames row)
      = combine (map Some fieldnames) (map cell_of row)
        ++ [(None, CList (skipn (List.length fieldnames) row))]).
Proof.
  split; [|split].
  - intros z member text fieldnames rows ended Hopen Hread.
    rewrite (iter_csv_rows z member text fieldnames rows ended Hopen Hread).
    cbn [fst snd]. split; [reflexivity | apply length_map].
  - intros fieldnames row Hnd Hlen.
    rewrite coerce_dict_of_row_exact by exact Hnd.
    replace (List.length fieldnames <? List.length row)%nat with false
      by (symmetry; apply Nat.ltb_ge; lia).
    apply app_nil_r.
  - intros fieldnames row Hnd Hlen.
    rewrite coerce_dict_of_row_exact by exact Hnd.
    replace (List.length fieldnames <? List.length row)%nat with true
      by (symmetry; apply Nat.ltb_lt; exact Hlen).
    replace (List.length fieldnames - List.length row) with 0 by lia.
    cbn [repeat]. rewrite app_nil_r. reflexivity.
Qed.


End StaticFacts.

(** ** The static properties on small members *)

Section StaticRuns.
Import PyDict Static Sample.


(** The claim of C7 fails on a member with a short and a long row:
    both are yielded, padded and extended, and nothing is raised. *)
Lemma short_and_long_rows_are_yielded :
  _iter_csv [("stops.txt", stops_txt)] "stops.txt"
  = ([[(Some "stop_id", CStr "101"); (Some "stop_name", CNone)];
      [(Some "stop_id", CStr "102"); (Some "stop_name", CStr "Van Cortlandt Park");
       (None, CList ["surplus"])]],
     None).
Proof. reflexivity. Defined.

Lemma column_count_mismatch_is_not_an_error_witness :
  NoDup ["stop_id"; "stop_name"]
  /\ coerce_row (dict_of_row ["stop_id"; "stop_name"] ["101"])
     = [(Some "stop_id", CStr "101"); (Some "stop_name", CNone)]
  /\ coerce_row (dict_of_row ["stop_id"; "stop_name"] ["102"; ""; "surplus"])
     = [(Some "stop_id", CStr "102"); (Some "stop_name", CNone);
        (None, CList ["surplus"])]
  /\ snd (_iter_csv [("stops.txt", stops_txt)] "stops.txt") = None.
Proof.
  assert (Hnd : NoDup ["stop_id"; "stop_name"]).
  { repeat (constructor; [cbn; intuition discriminate|]). constructor. }
  destruct column_count_mismatch_is_not_an_error as (Hiter & Hshort & Hlong).
  split; [exact Hnd|]. split; [|split].
  - apply (Hshort ["stop_id"; "stop_name"] ["101"] Hnd). cbn. lia.
  - apply (Hlong ["stop_id"; "stop_name"] ["102"; ""; "surplus"] Hnd). cbn. lia.
  - apply (Hiter [("stops.txt", stops_txt)] "stops.txt" stops_txt
             ["stop_id"; "stop_name"]
             [["101"]; []; ["102"; "Van Cortlandt Park"; "surplus"]] None);
      reflexivity.
Defined.


End StaticRuns.

(** * More on the resources of the real-time source *)

Section ResourceFacts.
Import Realtime.
Context {Message Dict : Type}.
Variable MessageToDict : Message -> Dict.
Variable default_instance : Message.
Variable requests_get : nat -> Request -> TransportFailure + Response.
Variable utcnow : nat -> string.
Variable ParseFromString : list byte -> option (FeedMessage Message).

Local Abbreviation rows_of := (rows_of MessageToDict default_instance).
Local Abbreviation iter_of := (iter_of MessageToDict default_instance utcnow).
Local Abbreviation _download_feed := (_download_feed requests_get ParseFromString).
Local Abbreviation fetch_raw_payload := (fetch_raw_payload requests_get).
Local Abbreviation for_feeds := (for_feeds requests_get ParseFromString).
Local Abbreviation resource_of :=
  (resource_of MessageToDict default_instance requests_get utcnow ParseFromString).

(** Whatever its outcome, a download sends one request. *)
Lemma download_requests (url : string) (api_key : option string) (w : World) :
  requests_in (log (snd (_download_feed url api_key w)))
  = requests_in (log w) ++ [mkRequest url (headers_for api_key) 30].
Proof.
  unfold Realtime._download_feed, bind, http_get.
  set (req := mkRequest url (headers_for api_key) 30).
  assert (Hget : requests_in (log (emit (EvGet req) w)) = requests_in (log w) ++ [req]).
  { cbn. rewrite requests_in_app. reflexivity. }
  destruct (requests_get (tick w) req) as [f|resp]; [exact Hget|].
  unfold check_status. destruct (raise_for_status resp) as [e|]; [exact Hget|].
  unfold ret, parse.
  destruct (ParseFromString (content resp)); cbn;
    rewrite !requests_in_app; cbn; rewrite app_nil_r; reflexivity.
Qed.

Lemma iter_requests (k : Kind) (feed_name : string) (feed_msg : FeedMessage Message)
  (w : World) :
  requests_in (log (snd (iter_of k feed_name feed_msg w))) = requests_in (log w).
Proof.
  rewrite iter_of_rows. cbn. rewrite requests_in_app. cbn. apply app_nil_r.
Qed.

(** X1.  A resource has no isolation between feeds: when the names
    before a feed went through and the download of that feed fails,
    with whatever exception, the resource ends with that exception; the
    rows of the earlier feeds have been yielded, the failed request is
    the last one sent, and the names after it are never looked at. *)
Theorem resource_stops_at_first_failed_download
  (k : Kind) (api_key : option string) (before after : list string)
  (name url : string) (e : Exception) (rows : list (Row Dict)) (w w1 w2 : World) :
  PyDict.get String.eqb FEED_URLS name = Some url ->
  for_feeds (iter_of k) api_key before w = ((rows, None), w1) ->
  _download_feed url api_key w1 = (inl e, w2) ->
  resource_of k api_key (Some (before ++ name :: after)) w = ((rows, Some e), w2)
  /\ requests_in (log w2)
     = requests_in (log w1) ++ [mkRequest url (headers_for api_key) 30].
Proof.
  intros Hurl Hbefore Hfail. split.
  - rewrite resource_of_for_feeds.
    replace (selected (Some (before ++ name :: after))) with (before ++ name :: after)
      by (destruct before; reflexivity).
    rewrite for_feeds_app, Hbefore. cbn [Realtime.for_feeds].
    rewrite Hurl, Hfail, app_nil_r. reflexivity.
  - pose proof (download_requests url api_key w1) as H. rewrite Hfail in H. exact H.
Qed.

(** X2.  A resource sends its requests in the order of the list of
    names, one for each name it gets to: the requests sent are those of
    a front part of the list, each to the URL of the table, with the
    headers of the key and a timeout of 30; when the resource ends
    normally, the front part is the whole list. *)
Theorem resource_requests_follow_the_list
  (k : Kind) (api_key : option string) (names : list string) (w : World) :
  exists fetched rest sent,
    names = fetched ++ rest
    /\ requests_in (log (snd (for_feeds (iter_of k) api_key names w)))
       = requests_in (log w) ++ sent
    /\ map Some sent = map (request_for api_key) fetched
    /\ (snd (fst (for_feeds (iter_of k) api_key names w)) = None -> rest = []).
Proof.
  revert w. induction names as [|n names IH]; intros w.
  - exists [], [], []. cbn. rewrite app_nil_r. repeat split; reflexivity.
  - cbn [Realtime.for_feeds].
    destruct (PyDict.get String.eqb FEED_URLS n) as [url|] eqn:Hurl.
    + pose proof (download_requests url api_key w) as Hdl.
      destruct (_download_feed url api_key w) as [[e|feed_msg] w1].
      * exists [n], names, [mkRequest url (headers_for api_key) 30].
        cbn [fst snd] in *. unfold request_for. cbn [map]. rewrite Hurl.
        repeat split; [exact Hdl | discriminate].
      * pose proof (iter_requests k n feed_msg w1) as Hit.
        destruct (iter_of k n feed_msg w1) as [rows w2].
        destruct (IH w2) as (fetched & rest & sent & Hnames & Hlog & Hsent & Hend).
        destruct (for_feeds (iter_of k) api_key names w2) as [[rows' ended] w3].
        cbn [fst snd] in *.
        exists (n :: fetched), rest, (mkRequest url (headers_for api_key) 30 :: sent).
        split; [rewrite Hnames; reflexivity|].
        split; [rewrite Hlog, Hit, Hdl, <- app_assoc; reflexivity|].
        split; [cbn [map]; unfold request_for at 1; rewrite Hurl, Hsent; reflexivity|].
        exact Hend.
    + exists [], (n :: names), []. cbn [fst snd]. rewrite app_nil_r.
      repeat split; discriminate.
Qed.



(** X4.  The download of a feed is the raw fetch of the stand-alone
    script with a timeout of 30, followed by the decoder on the bytes
    it returned. *)
Theorem download_is_raw_fetch_then_decode
  (url : string) (api_key : option string) (w : World) :
  _download_feed url api_key w
  = match fetch_raw_payload url api_key 30 w with
    | (inl e, w') => (inl e, w')
    | (inr body, w') => parse Message ParseFromString body w'
    end.
Proof.
  unfold Realtime._download_feed, Realtime.fetch_raw_payload, bind, http_get.
  destruct (requests_get (tick w) (mkRequest url (headers_for api_key) 30)) as [f|resp];
    [reflexivity|].
  unfold check_status. destruct (raise_for_status resp); reflexivity.
Qed.

(** X5.  Two resources consumed one after the other over the same
    names, both ending normally, send every request twice: nothing of
    the first download is kept for the second. *)
Theorem resources_fetch_independently
  (k1 k2 : Kind) (api_key : option string) (names : list string)
  (rows1 rows2 : list (Row Dict)) (w w1 w2 : World) :
  for_feeds (iter_of k1) api_key names w = ((rows1, None), w1) ->
  for_feeds (iter_of k2) api_key names w1 = ((rows2, None), w2) ->
  exists sent,
    map Some sent = map (request_for api_key) names
    /\ requests_in (log w2) = requests_in (log w) ++ sent ++ sent.
Proof.
  intros H1 H2.
  destruct (resource_requests_follow_the_list k1 api_key names w)
    as (f1 & r1 & s1 & Hn1 & Hl1 & Hs1 & He1).
  destruct (resource_requests_follow_the_list k2 api_key names w1)
    as (f2 & r2 & s2 & Hn2 & Hl2 & Hs2 & He2).
  rewrite H1 in Hl1, He1. rewrite H2 in Hl2, He2. cbn [fst snd] in *.
  rewrite (He1 eq_refl), app_nil_r in Hn1. rewrite (He2 eq_refl), app_nil_r in Hn2.
  subst f1 f2.
  assert (Hsame : s1 = s2).
  { apply (f_equal (map Some)) in Hs1 as Hs1'. clear Hs1'.
    assert (Hinj : forall a b : list Request, map Some a = map Some b -> a = b).
    { induction a as [|x a IHa]; destruct b as [|y b]; cbn; intros E;
        try discriminate; [reflexivity|].
      injection E as -> E. f_equal. apply IHa, E. }
    apply Hinj. rewrite Hs1, Hs2. reflexivity. }
  subst s2. exists s1. split; [exact Hs1|].
  rewrite Hl2, Hl1, <- app_assoc. reflexivity.
Qed.

End ResourceFacts.

(** * The reader on written text *)

Section ReaderFacts.
Import Static CsvText.

Lemma str_app_assoc (a b c : string) : ((a ++ b) ++ c = a ++ (b ++ c))%string.
Proof. induction a as [|x a IH]; cbn; [reflexivity | rewrite IH; reflexivity]. Qed.

Lemma str_app_nil_r (a : string) : (a ++ "" = a)%string.
Proof. induction a as [|x a IH]; cbn; [reflexivity | rewrite IH; reflexivity]. Qed.

Lemma str_length_app (a b : string) :
  String.length (a ++ b) = String.length a + String.length b.
Proof. induction a as [|x a IH]; cbn; [reflexivity | rewrite IH; reflexivity]. Qed.

Lemma snoc_app (a : string) (c : ascii) (s : string) :
  (snoc a c ++ s = a ++ String c s)%string.
Proof. unfold snoc. rewrite str_app_assoc. reflexivity. Qed.

Lemma length_snoc (a : string) (c : ascii) : String.length (snoc a c) = S (String.length a).
Proof. unfold snoc. rewrite str_length_app. cbn. lia. Qed.

Lemma snoc_app_comm (a b : string) (d c : ascii) :
  snoc (a ++ String d b) c = (a ++ String d (snoc b c))%string.
Proof. unfold snoc. rewrite str_app_assoc. reflexivity. Qed.

Lemma feed_chars_app (r : ReaderObj) (s1 s2 : string) :
  feed_chars r (s1 ++ s2)
  = match feed_chars r s1 with
    | inl e => inl e
    | inr r' => feed_chars r' s2
    end.
Proof.
  revert r. induction s1 as [|c s1 IH]; intros r; [reflexivity|].
  cbn. destruct (parse_process_char r (Some c)); [reflexivity | apply IH].
Qed.

Lemma feed_line_app (r : ReaderObj) (s1 s2 : string) :
  feed_line r (s1 ++ s2)
  = match feed_chars r s1 with
    | inl e => inl e
    | inr r' => feed_line r' s2
    end.
Proof.
  revert r. induction s1 as [|c s1 IH]; intros r; [reflexivity|].
  cbn. destruct (parse_process_char r (Some c)); [reflexivity | apply IH].
Qed.

Lemma add_char_ok (st : ParserState) (fld : string) (flds : list string) (c : ascii) :
  (Z.of_nat (String.length fld) < field_limit)%Z ->
  parse_add_char (mkReader st fld flds) c = inr (mkReader st (snoc fld c) flds).
Proof.
  intros H. unfold parse_add_char. cbn [field state fields].
  replace (field_limit <=? Z.of_nat (String.length fld))%Z with false
    by (symmetry; apply Z.leb_gt; exact H).
  reflexivity.
Qed.

Lemma plain_char_inv (c : ascii) :
  plain_char c = true ->
  Ascii.eqb c delimiter = false /\ Ascii.eqb c quotechar = false /\ is_newline c = false.
Proof.
  unfold plain_char. intros H. apply negb_true_iff in H.
  apply orb_false_iff in H. destruct H as [H Hn].
  apply orb_false_iff in H. destruct H as [Hd Hq]. auto.
Qed.

(** Plain characters go to the field being read. *)
Lemma feed_plain (s : string) (st : ParserState) (fld : string) (flds : list string) :
  plain_chars s = true ->
  (Z.of_nat (String.length fld + String.length s) <= field_limit)%Z ->
  st = START_RECORD \/ st = START_FIELD \/ st = IN_FIELD ->
  feed_chars (mkReader st fld flds) s
  = inr (mkReader (if s =? "" then st else IN_FIELD) (fld ++ s) flds).
Proof.
  revert st fld. induction s as [|c s IH]; intros st fld Hplain Hlen Hst.
  - cbn. rewrite str_app_nil_r. reflexivity.
  - cbn [plain_chars] in Hplain. apply andb_true_iff in Hplain.
    destruct Hplain as [Hc Hs]. apply plain_char_inv in Hc.
    destruct Hc as (Hd & Hq & Hn). cbn [String.length] in Hlen.
    assert (Hstep : parse_process_char (mkReader st fld flds) (Some c)
                    = inr (mkReader IN_FIELD (snoc fld c) flds)).
    { destruct Hst as [->|[->| ->]]; unfold parse_process_char, start_field, with_state;
        cbn [state field fields]; rewrite ?Hn; cbn [state field fields];
        rewrite ?Hn, ?Hq, ?Hd; cbn [state field fields];
        rewrite add_char_ok by lia; reflexivity. }
    cbn [feed_chars]. rewrite Hstep, IH; [| exact Hs | rewrite length_snoc; lia | auto].
    rewrite snoc_app. cbn [String.eqb]. destruct (s =? ""); reflexivity.
Qed.

Lemma quoted_char_step (c : ascii) (fld : string) (flds : list string) :
  Ascii.eqb c quotechar = false ->
  (Z.of_nat (String.length fld) < field_limit)%Z ->
  parse_process_char (mkReader IN_QUOTED_FIELD fld flds) (Some c)
  = inr (mkReader IN_QUOTED_FIELD (snoc fld c) flds).
Proof.
  intros Hq Hlen. unfold parse_process_char. cbn [state]. rewrite Hq.
  apply add_char_ok, Hlen.
Qed.

Lemma doubled_quote_step (fld : string) (flds : list string) :
  (Z.of_nat (String.length fld) < field_limit)%Z ->
  parse_process_char (mkReader QUOTE_IN_QUOTED_FIELD fld flds) (Some quotechar)
  = inr (mkReader IN_QUOTED_FIELD (snoc fld quotechar) flds).
Proof.
  intros Hlen. unfold parse_process_char. cbn [state].
  rewrite Ascii.eqb_refl, add_char_ok by exact Hlen. reflexivity.
Qed.

(** Inside the quotes every character goes to the field, a doubled
    quote as one. *)
Lemma feed_quoted_body (s fld : string) (flds : list string) :
  (Z.of_nat (String.length fld + String.length s) <= field_limit)%Z ->
  feed_chars (mkReader IN_QUOTED_FIELD fld flds) (double_quotes s)
  = inr (mkReader IN_QUOTED_FIELD (fld ++ s) flds).
Proof.
  revert fld. induction s as [|c s IH]; intros fld Hlen.
  - cbn. rewrite str_app_nil_r. reflexivity.
  - cbn [String.length] in Hlen. cbn [double_quotes].
    destruct (Ascii.eqb c quotechar) eqn:Hq.
    + apply Ascii.eqb_eq in Hq. subst c. cbn [feed_chars].
      replace (parse_process_char (mkReader IN_QUOTED_FIELD fld flds) (Some quotechar))
        with (@inr Exception _ (mkReader QUOTE_IN_QUOTED_FIELD fld flds))
        by reflexivity.
      rewrite doubled_quote_step by lia.
      rewrite IH by (rewrite length_snoc; lia). rewrite snoc_app. reflexivity.
    + cbn [feed_chars]. rewrite quoted_char_step by (assumption || lia).
      rewrite IH by (rewrite length_snoc; lia). rewrite snoc_app. reflexivity.
Qed.

Lemma feed_quoted (f : string) (st : ParserState) (flds : list string) :
  (Z.of_nat (String.length f) <= field_limit)%Z ->
  st = START_RECORD \/ st = START_FIELD ->
  feed_chars (mkReader st "" flds) (quote_field f)
  = inr (mkReader QUOTE_IN_QUOTED_FIELD f flds).
Proof.
  intros Hlen Hst. unfold quote_field. cbn [feed_chars].
  assert (Hopen : parse_process_char (mkReader st "" flds) (Some quotechar)
                  = inr (mkReader IN_QUOTED_FIELD "" flds)).
  { destruct Hst as [->| ->]; reflexivity. }
  rewrite Hopen, feed_chars_app, feed_quoted_body by (cbn; lia).
  reflexivity.
Qed.

Lemma field_ok_inv (f : string) :
  field_ok f = true ->
  no_newline f = true /\ (Z.of_nat (String.length f) <= field_limit)%Z.
Proof.
  unfold field_ok. intros H. apply andb_true_iff in H. destruct H as [Hn Hl].
  split; [exact Hn | apply Z.leb_le; exact Hl].
Qed.

Lemma feed_field (alone : bool) (f : string) (st : ParserState) (flds : list string) :
  field_ok f = true ->
  st = START_RECORD \/ st = START_FIELD ->
  feed_chars (mkReader st "" flds) (write_field alone f)
  = inr (mkReader (state_after_field alone st f) f flds).
Proof.
  intros Hok Hst. apply field_ok_inv in Hok. destruct Hok as [_ Hlen].
  unfold write_field, state_after_field.
  destruct (plain_chars f && negb (alone && (f =? ""))) eqn:Hbare.
  - apply andb_true_iff in Hbare. destruct Hbare as [Hplain _].
    rewrite feed_plain; [reflexivity | exact Hplain | cbn; lia | tauto].
  - apply feed_quoted; assumption.
Qed.

Lemma state_after_field_cases (alone : bool) (st : ParserState) (f : string) :
  state_after_field alone st f = IN_FIELD
  \/ state_after_field alone st f = QUOTE_IN_QUOTED_FIELD
  \/ (state_after_field alone st f = st /\ f = "" /\ alone = false).
Proof.
  unfold state_after_field.
  destruct (plain_chars f); cbn [andb]; [|auto].
  destruct (f =? "") eqn:E.
  - apply String.eqb_eq in E. destruct alone; cbn; auto.
  - rewrite andb_false_r. cbn. auto.
Qed.

(** A comma after a field closes it. *)
Lemma comma_closes (st : ParserState) (fld : string) (flds : list string) :
  st = START_RECORD \/ st = START_FIELD \/ st = IN_FIELD \/ st = QUOTE_IN_QUOTED_FIELD ->
  parse_process_char (mkReader st fld flds) (Some delimiter)
  = inr (mkReader START_FIELD "" (flds ++ [fld])).
Proof. intros [->|[->|[->| ->]]]; reflexivity. Qed.

(** The line feed and the end-of-line mark after a field close the
    field and the record. *)
Lemma line_end_closes (st : ParserState) (fld : string) (flds : list string) :
  st = START_FIELD \/ st = IN_FIELD \/ st = QUOTE_IN_QUOTED_FIELD ->
  feed_line (mkReader st fld flds) (String LF "")
  = inr (mkReader START_RECORD "" (flds ++ [fld])).
Proof. intros [->|[->| ->]]; reflexivity. Qed.

Lemma after_field_not_start_record (alone : bool) (f : string) :
  state_after_field alone START_FIELD f = START_FIELD
  \/ state_after_field alone START_FIELD f = IN_FIELD
  \/ state_after_field alone START_FIELD f = QUOTE_IN_QUOTED_FIELD.
Proof.
  destruct (state_after_field_cases alone START_FIELD f) as [H|[H|[H _]]]; auto.
Qed.

(** The fields of a row, read from the start of a field to the end of
    the line. *)
Lemma feed_fields (row : list string) (flds : list string) :
  row <> [] -> Forall (fun f => field_ok f = true) row ->
  feed_line (mkReader START_FIELD "" flds) (snoc (join_fields row) LF)
  = inr (mkReader START_RECORD "" (flds ++ row)).
Proof.
  revert flds. induction row as [|f row IH]; intros flds Hne Hok; [contradiction|].
  inversion Hok as [|? ? Hf Hrow]; subst.
  destruct row as [|g row].
  - cbn [join_fields]. unfold snoc.
    rewrite feed_line_app, feed_field by (assumption || auto).
    apply line_end_closes, after_field_not_start_record.
  - change (join_fields (f :: g :: row))
      with (write_field false f ++ String delimiter (join_fields (g :: row)))%string.
    rewrite snoc_app_comm.
    rewrite feed_line_app, feed_field by (assumption || auto).
    cbn [feed_line]. rewrite comma_closes.
    + rewrite IH by (assumption || discriminate).
      rewrite <- app_assoc. reflexivity.
    + destruct (after_field_not_start_record false f) as [H|[H|H]]; rewrite H; auto.
Qed.

(** A written line, read from the start of a record, gives its row. *)
Lemma feed_written_line (row : list string) :
  Forall (fun f => field_ok f = true) row ->
  feed_line parse_reset (line_of row) = inr (mkReader START_RECORD "" row).
Proof.
  intros Hok. unfold line_of, parse_reset.
  destruct row as [|f [|g row]].
  - reflexivity.
  - inversion Hok as [|? ? Hf _]; subst. cbn [write_row]. unfold snoc.
    rewrite feed_line_app, feed_field by (assumption || auto).
    apply line_end_closes.
    destruct (state_after_field_cases true START_RECORD f) as [H|[H|[_ [_ H]]]];
      [auto | auto | discriminate].
  - inversion Hok as [|? ? Hf Hrow]; subst.
    change (write_row (f :: g :: row))
      with (write_field false f ++ String delimiter (join_fields (g :: row)))%string.
    rewrite snoc_app_comm.
    rewrite feed_line_app, feed_field by (assumption || auto).
    cbn [feed_line]. rewrite comma_closes.
    + rewrite (feed_fields (g :: row)) by (assumption || discriminate). reflexivity.
    + destruct (state_after_field_cases false START_RECORD f) as [H|[H|[H _]]];
        rewrite H; auto.
Qed.

Lemma reader_rows_written (rows : list (list string)) :
  Forall (Forall (fun f => field_ok f = true)) rows ->
  reader_rows parse_reset (map line_of rows) = (rows, None).
Proof.
  induction 1 as [|row rows Hrow Hrows IH]; [reflexivity|].
  cbn [map reader_rows]. rewrite feed_written_line by exact Hrow.
  cbn [state is_start_record fields]. rewrite IH. reflexivity.
Qed.

(** *** The lines of a text *)

Lemma no_newline_app (a b : string) :
  no_newline (a ++ b) = no_newline a && no_newline b.
Proof.
  induction a as [|c a IH]; [reflexivity|].
  cbn. rewrite IH, andb_assoc. reflexivity.
Qed.

Lemma no_newline_double_quotes (s : string) :
  no_newline s = true -> no_newline (double_quotes s) = true.
Proof.
  induction s as [|c s IH]; [reflexivity|].
  cbn [no_newline double_quotes]. intros H. apply andb_true_iff in H.
  destruct H as [Hc Hs].
  destruct (Ascii.eqb c quotechar); cbn [no_newline];
    rewrite ?Hc, IH by exact Hs; reflexivity.
Qed.

Lemma no_newline_write_field (alone : bool) (f : string) :
  no_newline f = true -> no_newline (write_field alone f) = true.
Proof.
  intros H. unfold write_field.
  destruct (plain_chars f && negb (alone && (f =? ""))); [exact H|].
  unfold quote_field. cbn [no_newline].
  rewrite no_newline_app, no_newline_double_quotes by exact H. reflexivity.
Qed.

Lemma no_newline_join_fields (row : list string) :
  Forall (fun f => field_ok f = true) row -> no_newline (join_fields row) = true.
Proof.
  induction 1 as [|f row Hf Hrow IH]; [reflexivity|].
  apply field_ok_inv in Hf. destruct Hf as [Hf _].
  destruct row as [|g row].
  - apply no_newline_write_field, Hf.
  - change (join_fields (f :: g :: row))
      with (write_field false f ++ String delimiter (join_fields (g :: row)))%string.
    rewrite no_newline_app, no_newline_write_field by exact Hf.
    cbn [no_newline andb]. rewrite IH. reflexivity.
Qed.

Lemma no_newline_write_row (row : list string) :
  Forall (fun f => field_ok f = true) row -> no_newline (write_row row) = true.
Proof.
  intros Hok. destruct row as [|f [|g row]].
  - reflexivity.
  - inversion Hok as [|? ? Hf _]; subst. apply field_ok_inv in Hf.
    apply no_newline_write_field, Hf.
  - apply (no_newline_join_fields (f :: g :: row)), Hok.
Qed.

(** A stretch without line ends, then a line feed, is one line. *)
Lemma lines_from_line (s cur rest : string) :
  no_newline s = true ->
  lines_from cur (s ++ String LF rest) = snoc (cur ++ s) LF :: lines_from "" rest.
Proof.
  revert cur. induction s as [|c s IH]; intros cur Hs.
  - cbn. rewrite str_app_nil_r. reflexivity.
  - cbn [no_newline] in Hs. apply andb_true_iff in Hs. destruct Hs as [Hc Hs].
    apply negb_true_iff in Hc. unfold is_newline in Hc.
    apply orb_false_iff in Hc. destruct Hc as [Hlf Hcr].
    cbn [append lines_from]. rewrite Hlf, Hcr, IH by exact Hs.
    rewrite snoc_app. reflexivity.
Qed.

Lemma readlines_text_of (rows : list (list string)) :
  Forall (Forall (fun f => field_ok f = true)) rows ->
  readlines (text_of rows) = map line_of rows.
Proof.
  unfold readlines. induction 1 as [|row rows Hrow Hrows IH]; [reflexivity|].
  cbn [text_of map]. unfold line_of at 1. rewrite snoc_app.
  rewrite lines_from_line by (apply no_newline_write_row, Hrow).
  rewrite IH. reflexivity.
Qed.

(** X6.  Reading back what was written: for rows whose fields hold no
    line end and are within the field limit, the reader returns, from
    the written text, exactly these rows, in order and without error;
    fields with commas or double quotes in them, empty fields and empty
    rows included. *)
Theorem reader_returns_written_rows (rows : list (list string)) :
  Forall (Forall (fun f => field_ok f = true)) rows ->
  csv_reader (readlines (text_of rows)) = (rows, None).
Proof.
  intros Hok. unfold csv_reader.
  rewrite readlines_text_of by exact Hok. apply reader_rows_written, Hok.
Qed.



End ReaderFacts.

(** * What can go wrong in a member *)

Section ReaderErrors.
Import Static CsvText.













(** *** Line ends *)

Lemma lines_from_crlf (s cur : string) :
  no_CR s = true -> lines_from cur (to_crlf s) = lines_from cur s.
Proof.
  revert cur. induction s as [|c s IH]; intros cur Hs; [reflexivity|].
  cbn [no_CR] in Hs. apply andb_true_iff in Hs. destruct Hs as [Hc Hs].
  apply negb_true_iff in Hc. cbn [to_crlf].
  destruct (Ascii.eqb c LF) eqn:Hlf.
  - apply Ascii.eqb_eq in Hlf. subst c.
    change (lines_from cur (String CR (String LF (to_crlf s))))
      with (snoc cur LF :: lines_from "" (to_crlf s)).
    change (lines_from cur (String LF s)) with (snoc cur LF :: lines_from "" s).
    rewrite IH by exact Hs. reflexivity.
  - cbn [lines_from]. rewrite Hlf, Hc. apply IH, Hs.
Qed.

(** X9.  A member whose lines end with a carriage return and a line
    feed is extracted exactly as the same member with plain line
    feeds. *)
Theorem crlf_member_reads_the_same
  (z z' : ZipFile) (member text : string) :
  no_CR text = true ->
  PyDict.get String.eqb z member = Some (to_crlf text) ->
  PyDict.get String.eqb z' member = Some text ->
  readlines (to_crlf text) = readlines text
  /\ _iter_csv z member = _iter_csv z' member.
Proof.
  intros Hcr Hz Hz'.
  assert (Hlines : readlines (to_crlf text) = readlines text)
    by (apply lines_from_crlf, Hcr).
  split; [exact Hlines|].
  unfold _iter_csv, open. rewrite Hz, Hz', Hlines. reflexivity.
Qed.

End ReaderErrors.

(** * The keys of a dictionary after assignments *)

Section PyDictKeys.
Import PyDict.
Context {K V : Type}.
Variable eqb : K -> K -> bool.
Hypothesis eqb_eq : forall a b, eqb a b = true <-> a = b.

Lemma in_keys_set (d : list (K * V)) (k k' : K) (v : V) :
  In k' (keys (set eqb d k v)) <-> k' = k \/ In k' (keys d).
Proof.
  induction d as [|[k0 v0] d IH]; cbn.
  - intuition congruence.
  - destruct (eqb k k0) eqn:E; cbn.
    + apply eqb_eq in E. subst k0. intuition congruence.
    + rewrite IH. intuition congruence.
Qed.

Lemma in_keys_fold_set (l : list (K * V)) (d : list (K * V)) (k' : K) :
  In k' (keys (fold_left (fun d kv => set eqb d (fst kv) (snd kv)) l d))
  <-> In k' (map fst l) \/ In k' (keys d).
Proof.
  revert d. induction l as [|[k v] l IH]; intros d; cbn [fold_left map fst snd].
  - cbn. tauto.
  - rewrite IH, in_keys_set. cbn. intuition congruence.
Qed.

End PyDictKeys.

(** * The columns of a row *)

Section RowKeys.
Import PyDict Static.

Lemma map_fst_combine {A B} (l : list A) (l' : list B) :
  map fst (combine l l') = firstn (List.length l') l.
Proof.
  revert l'. induction l as [|a l IH]; intros l'.
  - rewrite firstn_nil. reflexivity.
  - destruct l' as [|b l']; [reflexivity|]. cbn. f_equal. apply IH.
Qed.

Lemma in_keys_zip (fieldnames row : list string) (k : option string) :
  In k (keys (of_pairs key_eqb (combine (map Some fieldnames) (map CStr row))))
  <-> exists name, k = Some name /\ In name (firstn (List.length row) fieldnames).
Proof.
  unfold of_pairs. rewrite (in_keys_fold_set key_eqb key_eqb_eq).
  rewrite map_fst_combine, length_map, firstn_map, in_map_iff. cbn.
  split.
  - intros [[name [<- Hin]]|[]]. exists name. auto.
  - intros [name [-> Hin]]. left. exists name. auto.
Qed.

Lemma in_keys_dict_of_row (fieldnames row : list string) (k : option string) :
  In k (keys (dict_of_row fieldnames row))
  <-> (exists name, k = Some name /\ In name fieldnames)
      \/ (k = None /\ List.length fieldnames < List.length row).
Proof.
  unfold dict_of_row.
  destruct (List.length fieldnames <? List.length row)%nat eqn:Hlong.
  - apply Nat.ltb_lt in Hlong.
    rewrite (in_keys_set key_eqb key_eqb_eq), in_keys_zip.
    rewrite firstn_all2 by lia. intuition.
  - apply Nat.ltb_ge in Hlong.
    destruct (List.length row <? List.length fieldnames)%nat eqn:Hshort.
    + rewrite fold_restval, (in_keys_fold_set key_eqb key_eqb_eq), in_keys_zip.
      rewrite map_map. cbn [fst]. rewrite in_map_iff.
      split.
      * intros [[name [<- Hin]]|[name [-> Hin]]]; left; exists name;
          (split; [reflexivity|]).
        -- rewrite <- (firstn_skipn (List.length row) fieldnames).
           apply in_or_app. right. exact Hin.
        -- rewrite <- (firstn_skipn (List.length row) fieldnames).
           apply in_or_app. left. exact Hin.
      * intros [[name [-> Hin]]|[_ Hlt]]; [|lia].
        rewrite <- (firstn_skipn (List.length row) fieldnames) in Hin.
        apply in_app_or in Hin. destruct Hin as [Hin|Hin].
        -- right. exists name. auto.
        -- left. exists name. auto.
    + apply Nat.ltb_ge in Hshort. rewrite in_keys_zip.
      rewrite firstn_all2 by lia. split.
      * intros H. left. exact H.
      * intros [H|[_ Hlt]]; [exact H | lia].
Qed.

(** X10.  Every mapping [_iter_csv] yields has the same columns,
    whatever the length of its row: each name of the header is a key,
    once; no other name is; and the null key is there exactly when the
    row has more fields than the header. *)
Theorem yielded_columns_are_the_header (fieldnames row : list string) :
  let d := coerce_row (dict_of_row fieldnames row) in
  NoDup (keys d)
  /\ (forall name, In (Some name) (keys d) <-> In name fieldnames)
  /\ (In None (keys d) <-> List.length fieldnames < List.length row).
Proof.
  intros d. subst d.
  assert (Hkeys : keys (coerce_row (dict_of_row fieldnames row))
                  = keys (dict_of_row fieldnames row)).
  { rewrite coerce_row_map by apply dict_of_row_nodup.
    unfold keys. rewrite map_map. reflexivity. }
  rewrite Hkeys. split; [apply dict_of_row_nodup|]. split.
  - intros name. rewrite in_keys_dict_of_row. split.
    + intros [[n [E Hin]]|[E _]]; [injection E as ->; exact Hin | discriminate].
    + intros Hin. left. exists name. auto.
  - rewrite in_keys_dict_of_row. split.
    + intros [[n [E _]]|[_ Hlt]]; [discriminate | exact Hlt].
    + intros Hlt. right. auto.
Qed.

Lemma iter_csv_depends_on_member (z z' : ZipFile) (member : string) :
  PyDict.get String.eqb z' member = PyDict.get String.eqb z member ->
  _iter_csv z' member = _iter_csv z member.
Proof. intros H. unfold _iter_csv, open. rewrite H. reflexivity. Qed.

(** X11.  Each resource of the static source reads the member named
    after it and nothing else: its rows are those of [_iter_csv] on
    that member, they are the same in any archive that has the same
    text under that name, and when the archive lacks the member the
    resource, and only it, ends with [KeyError] naming the member. *)
Theorem resource_reads_its_own_member (zf : ZipFile) (r : Resource) :
  In r (mta_static_source zf) ->
  let member := (name r ++ ".txt")%string in
  rows r = _iter_csv zf member
  /\ (forall zf',
        PyDict.get String.eqb zf' member = PyDict.get String.eqb zf member ->
        exists r', In r' (mta_static_source zf')
                   /\ name r' = name r /\ rows r' = rows r)
  /\ (PyDict.get String.eqb zf member = None ->
      rows r = ([], Some (KeyError member))).
Proof.
  intros Hin member. subst member.
  assert (Hrows : rows r = _iter_csv zf (name r ++ ".txt")).
  { cbn in Hin. repeat (destruct Hin as [<-|Hin]; [reflexivity|]). destruct Hin. }
  split; [exact Hrows|]. split.
  - intros zf' Hsame.
    cbn in Hin.
    exists (mkResource (name r) (primary_key r) (write_disposition r)
              (_iter_csv zf' (name r ++ ".txt"))).
    split; [|split; [reflexivity|]].
    + repeat (destruct Hin as [<-|Hin]; [cbn; tauto|]). destruct Hin.
    + cbn [rows]. rewrite Hrows. apply iter_csv_depends_on_member, Hsame.
  - intros Hnone. rewrite Hrows. unfold _iter_csv, open. rewrite Hnone. reflexivity.
Qed.

End RowKeys.

(** * The download of the archive, and the script's table *)

Section FetchFacts.
Import Realtime.

Variable requests_get : nat -> Request -> TransportFailure + Response.
Variable ZipFile_of : list byte -> option Static.ZipFile.

Local Abbreviation mta_static_source := (StaticFetch.mta_static_source requests_get ZipFile_of).

(** The URL the source asks for. *)
Lemma static_url_cases (zip_url : option string) :
  match zip_url with
  | Some u => if truthy zip_url then u else StaticFetch.DEFAULT_GTFS_STATIC_ZIP
  | None => StaticFetch.DEFAULT_GTFS_STATIC_ZIP
  end
  = match zip_url with
    | Some u => if u =? "" then StaticFetch.DEFAULT_GTFS_STATIC_ZIP else u
    | None => StaticFetch.DEFAULT_GTFS_STATIC_ZIP
    end.
Proof. destruct zip_url as [u|]; [|reflexivity]. cbn. destruct (u =? ""); reflexivity. Qed.

(** X12.  Building the static source sends exactly one request,
    whatever comes of it: to the given URL, or to the default archive
    when the URL is absent or empty, without headers and with a timeout
    of 60.  The source is built only from a response whose status is no
    error and whose body is an archive, and its resources are those of
    that one archive; an error status ends the construction with
    [HTTPError] carrying the status. *)
Theorem static_source_downloads_once (zip_url : option string) (w : World) :
  let url := match zip_url with
             | Some u => if u =? "" then StaticFetch.DEFAULT_GTFS_STATIC_ZIP else u
             | None => StaticFetch.DEFAULT_GTFS_STATIC_ZIP
             end in
  let req := mkRequest url None 60 in
  let out := mta_static_source zip_url w in
  requests_in (log (snd out)) = requests_in (log w) ++ [req]
  /\ (forall resources,
        fst out = inr resources ->
        exists resp zf,
          requests_get (tick w) req = inr resp
          /\ raise_for_status resp = None
          /\ ZipFile_of (content resp) = Some zf
          /\ resources = Static.mta_static_source zf)
  /\ (forall resp,
        requests_get (tick w) req = inr resp ->
        (400 <= status_code resp < 600)%Z ->
        fst out = inl (StaticFetch.Request (HTTPError (status_code resp)))).
Proof.
  intros url req out. subst out.
  unfold StaticFetch.mta_static_source. rewrite static_url_cases. fold url.
  unfold StaticFetch._download_zip, http_get. fold req.
  assert (Hlog : requests_in (log (emit (EvGet req) w)) = requests_in (log w) ++ [req]).
  { cbn. rewrite requests_in_app. reflexivity. }
  destruct (requests_get (tick w) req) as [f|resp] eqn:Hget.
  - cbn [fst snd]. split; [exact Hlog|]. split; [discriminate|]. discriminate.
  - unfold raise_for_status.
    destruct ((400 <=? status_code resp) && (status_code resp <? 600))%Z eqn:Hst.
    + cbn [fst snd]. split; [exact Hlog|]. split; [discriminate|].
      intros resp' E _. injection E as <-. reflexivity.
    + destruct (ZipFile_of (content resp)) as [zf|] eqn:Hzip; cbn [fst snd].
      * split; [exact Hlog|]. split.
        -- intros resources E. injection E as <-. exists resp, zf.
           unfold raise_for_status. rewrite Hst. auto.
        -- intros resp' E Hrange. injection E as <-.
           apply andb_false_iff in Hst. destruct Hst as [Hst|Hst].
           ++ apply Z.leb_gt in Hst. lia.
           ++ apply Z.ltb_ge in Hst. lia.
      * split; [exact Hlog|]. split; [discriminate|].
        intros resp' E Hrange. injection E as <-.
        apply andb_false_iff in Hst. destruct Hst as [Hst|Hst].
        -- apply Z.leb_gt in Hst. lia.
        -- apply Z.ltb_ge in Hst. lia.
Qed.

(** X13.  The table of the stand-alone script is in step with the
    table of the real-time module: every name of the module's table has
    the same URL in the script's, in the same order, and the script's
    table has one name more, [alerts], which the module's has not. *)
Theorem script_table_in_step_with_module (name : string) :
  PyDict.get String.eqb RawPayload.get_feed_urls name
  = match PyDict.get String.eqb FEED_URLS name with
    | Some url => Some url
    | None =>
        if name =? "alerts"
        then Some "https://api-endpoint.mta.info/Dataservice/mtagtfsfeeds/camsys%2Fsubway-alerts"
        else None
    end
  /\ PyDict.keys RawPayload.get_feed_urls = PyDict.keys FEED_URLS ++ ["alerts"]
  /\ PyDict.get String.eqb FEED_URLS "alerts" = None.
Proof.
  split; [|split; reflexivity].
  unfold RawPayload.get_feed_urls, FEED_URLS. cbn [PyDict.get].
  repeat match goal with
         | |- context [if (name =? ?n) then _ else _] => destruct (name =? n)
         end; reflexivity.
Qed.


End FetchFacts.

(** ** The further properties at work in the sample world *)

Section MoreRuns.
Import Realtime Sample.

Local Abbreviation loop := (for_feeds (Message := string) serve_ok decode).
Local Abbreviation iter := (iter_of to_dict "" clock).

Lemma resource_stops_at_first_failed_download_witness :
  let out := resource_of to_dict "" serve_once clock decode Alert None
               (Some (["ace"] ++ "g" :: ["l"])) w0 in
  snd (fst out) = Some (RequestException ConnectionError)
  /\ List.length (fst (fst out)) = 2
  /\ List.length (requests_in (log (snd out))) = 2.
Proof.
  pose (first := for_feeds serve_once decode (iter Alert) None ["ace"] w0).
  pose (failed := _download_feed serve_once decode
                    "https://api-endpoint.mta.info/Dataservice/mtagtfsfeeds/nyct%2Fgtfs-g"
                    None (snd first)).
  destruct (resource_stops_at_first_failed_download to_dict "" serve_once clock decode
              Alert None ["ace"] ["l"] "g" _ (RequestException ConnectionError)
              (fst (fst first)) w0 (snd first) (snd failed)
              eq_refl eq_refl eq_refl) as [Heq _].
  cbv zeta. rewrite Heq. repeat split.
Defined.

Lemma resource_requests_follow_the_list_witness :
  exists sent,
    map Some sent = map (request_for (Some "key")) ["ace"; "g"]
    /\ requests_in (log (snd (loop (iter TripUpdate) (Some "key") ["ace"; "g"] w0))) = sent.
Proof.
  destruct (resource_requests_follow_the_list to_dict "" serve_ok clock decode
              TripUpdate (Some "key") ["ace"; "g"] w0)
    as (fetched & rest & sent & Hnames & Hlog & Hsent & Hend).
  specialize (Hend eq_refl). subst rest. rewrite app_nil_r in Hnames. subst fetched.
  exists sent. split; [exact Hsent | exact Hlog].
Defined.

Lemma resources_fetch_independently_witness :
  let first := loop (iter TripUpdate) None ["ace"] w0 in
  let second := loop (iter Alert) None ["ace"] (snd first) in
  exists sent,
    map Some sent = map (request_for None) ["ace"]
    /\ requests_in (log (snd second)) = sent ++ sent.
Proof.
  intros first second.
  exact (resources_fetch_independently to_dict "" serve_ok clock decode
           TripUpdate Alert None ["ace"] (fst (fst first)) (fst (fst second))
           w0 (snd first) (snd second) eq_refl eq_refl).
Defined.

End MoreRuns.

Section MoreStaticRuns.
Import PyDict Static CsvText Sample.

Lemma routes_fields_ok :
  Forall (Forall (fun f => field_ok f = true)) (routes_header :: routes_rows).
Proof. repeat constructor. Qed.

Lemma reader_returns_written_rows_witness :
  csv_reader (readlines routes_txt) = (routes_header :: routes_rows, None).
Proof. exact (reader_returns_written_rows _ routes_fields_ok). Defined.



Lemma crlf_member_reads_the_same_witness :
  no_CR stops_txt = true
  /\ _iter_csv [("stops.txt", to_crlf stops_txt)] "stops.txt"
     = _iter_csv [("stops.txt", stops_txt)] "stops.txt".
Proof.
  split; [reflexivity|].
  exact (proj2 (crlf_member_reads_the_same
                  [("stops.txt", to_crlf stops_txt)] [("stops.txt", stops_txt)]
                  "stops.txt" stops_txt eq_refl eq_refl eq_refl)).
Defined.

Lemma yielded_columns_are_the_header_witness :
  In None (keys (coerce_row (dict_of_row ["a"; "b"] ["1"; "2"; "3"])))
  /\ ~ In None (keys (coerce_row (dict_of_row ["a"; "b"] ["1"])))
  /\ In (Some "b") (keys (coerce_row (dict_of_row ["a"; "b"] ["1"]))).
Proof.
  destruct (yielded_columns_are_the_header ["a"; "b"] ["1"; "2"; "3"]) as (_ & _ & Hlong).
  destruct (yielded_columns_are_the_header ["a"; "b"] ["1"]) as (_ & Hnames & Hshort).
  split; [apply Hlong; cbn; lia|].
  split; [intros H; apply Hshort in H; cbn in H; lia|].
  apply Hnames. right. left. reflexivity.
Defined.

Lemma resource_reads_its_own_member_witness :
  let r := mkResource "stops" (Some "stop_id") "merge" (_iter_csv archive "stops.txt") in
  In r (mta_static_source archive)
  /\ rows r = ([], Some (KeyError "stops.txt")).
Proof.
  intros r.
  assert (Hin : In r (mta_static_source archive)) by (right; left; reflexivity).
  split; [exact Hin|].
  destruct (resource_reads_its_own_member archive r Hin) as (_ & _ & Hmissing).
  exact (Hmissing eq_refl).
Defined.

Lemma static_source_downloads_once_witness :
  fst (StaticFetch.mta_static_source Sample.serve_404 unzip (Some "") Sample.w0)
  = inl (StaticFetch.Request (Realtime.HTTPError 404)).
Proof.
  destruct (static_source_downloads_once Sample.serve_404 unzip (Some "") Sample.w0)
    as (_ & _ & Hstatus).
  apply (Hstatus (Realtime.mkResponse 404 [])); [reflexivity | cbn; lia].
Defined.


End MoreStaticRuns.
